(** * run_note.py: a batch runner for Jupyter notebooks

    A shallow embedding of [src/run_note.py] and the properties of its
    orchestration logic: the split of the configured list into a sequential
    prefix and a parallel suffix, the execute-and-save operation, and the
    exit status of the process.

    Layout: the Python list slicing used by the split ([Py]), a model of the
    part of [pathlib] the script uses ([PurePath]), the world the script acts
    on together with its state-and-exception monad ([Host]), the script itself
    ([Runner]), a small concrete setting ([Scenario]), and then the lemmas.

    What the model takes from the environment:
    - the execution engine is a parameter; it may fail in any way an
      [Exception] can and may change the file system;
    - paths are POSIX paths and the file system has no symbolic links: a
      path is walked component by component, [".."] steps out of a
      directory, and two paths whose walks end at the same place are the
      same file;
    - the root, the working directory and the directories above it are
      there; a relative path is walked from the working directory, and
      where that directory lies under the root is left open, so that
      nothing relates what a relative path reaches to what an absolute
      one reaches;
    - making a directory and opening a file for writing fail as the
      operating system makes them fail on what the walk meets, and where
      it refuses them; what it refuses is part of the file system;
      permissions on what is read and a disk that fills up while a file
      is written are left out;
    - console output is kept as events of the trace, the clock is left out;
    - the tasks of the process pool run one whole call at a time, in an
      order the pool chooses (a parameter of [main]). *)

From Stdlib Require Import ZArith Lia Ascii String.
From Stdlib Require Import Sorting.Permutation.
From stdpp Require Import base decidable countable list strings gmap.

Local Open Scope Z_scope.

(* ===================================================================== *)
(** ** Python sequences *)
(* ===================================================================== *)

Module Py.

(** [len(l)] as a Python integer. *)
Definition len {A} (l : list A) : Z := Z.of_nat (length l).

(** Truth value of a list: [not l] holds exactly for the empty list. *)
Definition truthy {A} (l : list A) : bool :=
  match l with [] => false | _ :: _ => true end.

(** A slice bound, as [slice.indices] computes it for step 1: a negative
    bound counts from the end, and the result is clamped to [0 .. n]. *)
Definition bound (n i : Z) : Z :=
  if i <? 0 then Z.max 0 (i + n) else Z.min i n.

(** [l[start:stop]]; [None] is an omitted bound. *)
Definition slice {A} (start stop : option Z) (l : list A) : list A :=
  let n := len l in
  let lo := match start with None => 0 | Some i => bound n i end in
  let hi := match stop with None => n | Some j => bound n j end in
  take (Z.to_nat (hi - lo)) (drop (Z.to_nat lo) l).

End Py.

(* ===================================================================== *)
(** ** The split of the configured list (lines 94-95) *)
(* ===================================================================== *)

Module Split.

(** [NOTEBOOKS[:-2] if len(NOTEBOOKS) >= 3 else NOTEBOOKS[:-2]] *)
Definition seq_part {A} (notebooks : list A) : list A :=
  if 3 <=? Py.len notebooks
  then Py.slice None (Some (-2)) notebooks
  else Py.slice None (Some (-2)) notebooks.

(** [NOTEBOOKS[-2:] if len(NOTEBOOKS) >= 2 else NOTEBOOKS[-2:]] *)
Definition par_part {A} (notebooks : list A) : list A :=
  if 2 <=? Py.len notebooks
  then Py.slice (Some (-2)) None notebooks
  else Py.slice (Some (-2)) None notebooks.

End Split.

(* ===================================================================== *)
(** ** The part of pathlib the script uses (POSIX flavour) *)
(* ===================================================================== *)

Module PurePath.

(** A path is its root flag and its components, as [PurePosixPath] keeps
    them.  The two-slash root of POSIX is folded into the ordinary root. *)
Record Path : Type := mkPath { anchored : bool; parts : list string }.

#[global] Instance Path_eq_dec : EqDecision Path.
Proof. solve_decision. Defined.

#[global] Instance Path_countable : Countable Path.
Proof.
  refine (inj_countable' (fun p => (anchored p, parts p))
                         (fun ap => mkPath (fst ap) (snd ap)) _).
  by intros [].
Defined.

Definition is_slash (c : ascii) : bool := Ascii.eqb c "/"%char.
Definition is_dot (c : ascii) : bool := Ascii.eqb c "."%char.

(** [s.split("/")] *)
Fixpoint split_slash (s : string) : list string :=
  match s with
  | EmptyString => [EmptyString]
  | String c s' =>
      if is_slash c then EmptyString :: split_slash s'
      else match split_slash s' with
           | h :: t => String c h :: t
           | [] => [String c EmptyString]
           end
  end.

(** A string without ["/"]: what a single component is. *)
Fixpoint slash_free (s : string) : bool :=
  match s with
  | EmptyString => true
  | String c s' => negb (is_slash c) && slash_free s'
  end.

(** A path all of whose components are free of slashes. *)
Definition components_ok (p : Path) : Prop :=
  Forall (fun c => slash_free c = true) (parts p).

(** Components the parser keeps: empty ones and ["."] are dropped. *)
Definition kept (c : string) : bool :=
  negb (String.eqb c "") && negb (String.eqb c ".").

Definition starts_with_slash (s : string) : bool :=
  match s with String c _ => is_slash c | EmptyString => false end.

(** [Path(s)] *)
Definition of_str (s : string) : Path :=
  {| anchored := starts_with_slash s;
     parts := List.filter kept (split_slash s) |}.

(** [p.is_absolute()] *)
Definition is_absolute (p : Path) : bool := anchored p.

(** [p / q] for two paths: an absolute right operand replaces the left. *)
Definition joinpath (p q : Path) : Path :=
  if anchored q then q
  else {| anchored := anchored p; parts := parts p ++ parts q |}.

(** [p / s] for a string [s]. *)
Definition div (p : Path) (s : string) : Path := joinpath p (of_str s).

(** [p.name]: the final component, [""] when there is none. *)
Definition name (p : Path) : string := List.last (parts p) "".

(** [s.rfind(".")]: the index of the last dot, [-1] when there is none. *)
Fixpoint rfind_dot (s : string) : Z :=
  match s with
  | EmptyString => -1
  | String c s' =>
      let r := rfind_dot s' in
      if 0 <=? r then r + 1 else if is_dot c then 0 else -1
  end.

(** [p.stem]: the name without its last suffix; a leading or a trailing
    dot does not start a suffix ([0 < i < len(name) - 1]). *)
Definition stem (p : Path) : string :=
  let nm := name p in
  let i := rfind_dot nm in
  if (0 <? i) && (i <? Z.of_nat (String.length nm) - 1)
  then String.substring 0 (Z.to_nat i) nm
  else nm.

(** [p.parent] *)
Definition parent (p : Path) : Path :=
  {| anchored := anchored p; parts := removelast (parts p) |}.

(** [str(p)] *)
Definition str (p : Path) : string :=
  let body := String.concat "/" (parts p) in
  if anchored p then "/" +:+ body
  else match parts p with [] => "." | _ :: _ => body end.

(** Removal of [".."] components, left to right; [acc] is the reversed
    list of the components kept so far, and [".."] at the root stays
    at the root. *)
Fixpoint collapse (acc : list string) (ps : list string) : list string :=
  match ps with
  | [] => rev acc
  | c :: ps' =>
      if String.eqb c ".." then collapse (tail acc) ps'
      else collapse (c :: acc) ps'
  end.

(** [p.resolve()] in a file system without symbolic links and with
    working directory [cwd]: the path is made absolute against [cwd] and
    its [".."] components are removed. *)
Definition resolve (cwd p : Path) : Path :=
  let q := joinpath cwd p in
  {| anchored := anchored q; parts := collapse [] (parts q) |}.

(** One step of the operating system along a path, from the directory
    reached so far ([acc], its components in reverse): [".."] steps out of
    the last component, stays at the root of an absolute path, and adds up
    in front of a relative one; any other component steps in. *)
Definition step (rooted : bool) (acc : list string) (c : string)
    : list string :=
  if String.eqb c ".." then
    match acc with
    | a :: acc' => if String.eqb a ".." then c :: acc else acc'
    | [] => if rooted then [] else [c]
    end
  else c :: acc.

(** The normal form of a path, the one without [".."] but in front of a
    relative path: where the steps along the path end. *)
Definition normal (p : Path) : Path :=
  {| anchored := anchored p;
     parts := rev (foldl (step (anchored p)) [] (parts p)) |}.

End PurePath.

Export PurePath (Path, mkPath, anchored, parts).

(* ===================================================================== *)
(** ** Exceptions *)
(* ===================================================================== *)

(** The subclasses of [Exception] the script can meet.  [OtherError] stands
    for every class the script does not name (an [OSError] of [open], a
    parse error of [nbformat.read], a timeout or a dead kernel of the
    engine); its argument is the class name. *)
Inductive Exception : Type :=
  | FileNotFoundError (p : Path)
  | CellExecutionError (msg : string)
  | OtherError (kind : string).

(** What can unwind the stack: an [Exception], or the [SystemExit] that
    [sys.exit] raises, which [except Exception] does not catch. *)
Inductive BaseException : Type :=
  | Exc (e : Exception)
  | SystemExit (code : Z).

(** The outcome of a computation: a value or a raised exception. *)
Inductive Res (A : Type) : Type :=
  | Done (a : A)
  | Raise (e : BaseException).
Arguments Done {A} a.
Arguments Raise {A} e.

(* ===================================================================== *)
(** ** The world the script acts on *)
(* ===================================================================== *)

Module Host.
Section World.

(** A notebook document, opaque to the script: it is read, handed to the
    engine and written back. *)
Variable Notebook : Type.

(** What a path of the file system holds: a notebook [nbformat.read]
    accepts, a file it rejects, or a directory. *)
Inductive node : Type :=
  | NbFile (nb : Notebook)
  | RawFile
  | Dir.

(** The file system: what the normal form of each path holds, and the
    paths at which the operating system refuses to make a directory or to
    open a file for writing (a directory without write permission, a
    read-only file system), with the class of the [OSError] it raises
    there. *)
Record FS : Type := mkFS {
  store : gmap Path node;
  denied : gmap Path string
}.

(** What is at the end of the steps [acc]: the root, the working directory
    and the directories above it are directories, the rest is what the
    store holds. *)
Definition held (s : gmap Path node) (rooted : bool) (acc : list string)
    : option node :=
  match acc with
  | [] => Some Dir
  | a :: _ =>
      if String.eqb a ".." then Some Dir
      else s !! mkPath rooted (rev acc)
  end.

(** How the operating system gets along a path: it reaches the end, or it
    stops at a component it cannot step from, because nothing is there
    ([ENOENT]) or a regular file is ([ENOTDIR]). *)
Inductive Walk : Type :=
  | Reached (acc : list string)
  | NoEntry
  | NotDirectory.

(** The walk along the components [ps] from the directory at [acc]: every
    component is looked up in a directory. *)
Fixpoint walk (s : gmap Path node) (rooted : bool) (acc ps : list string)
    : Walk :=
  match ps with
  | [] => Reached acc
  | c :: ps' =>
      match held s rooted acc with
      | Some Dir => walk s rooted (PurePath.step rooted acc c) ps'
      | Some _ => NotDirectory
      | None => NoEntry
      end
  end.

(** What a path holds: what is at the end of the walk along it, and
    nothing when the walk stops before. *)
#[global] Instance FS_lookup : Lookup Path node FS :=
  fun p m =>
    match walk (store m) (anchored p) [] (parts p) with
    | Reached acc => held (store m) (anchored p) acc
    | NoEntry | NotDirectory => None
    end.

(** The file system with [x] at the normal form of a path. *)
#[global] Instance FS_insert : Insert Path node FS :=
  fun p x m => mkFS (<[PurePath.normal p := x]> (store m)) (denied m).

#[global] Instance FS_empty : Empty FS := mkFS ∅ ∅.

(** The arguments of [ExecutePreprocessor(...)]. *)
Record EngineConfig : Type := mkEngineConfig {
  timeout : Z;
  kernel_name : string;
  allow_errors : bool
}.

(** How [ep.preprocess] ends.  The document is mutated in place, so it
    has a state in both cases: [doc] is the document as the engine left
    it. *)
Inductive Outcome : Type :=
  | Returned (doc : Notebook)
  | Raised (e : Exception) (doc : Notebook).

(** The execution engine, an opaque collaborator: from its configuration,
    the document, the [resources] path and the file system it gives an
    outcome and the file system as the executed cells left it. *)
Definition Engine : Type :=
  EngineConfig -> Notebook -> string -> FS -> Outcome * FS.

(** The lines the script prints, by the statement that prints them. *)
Inductive Msg : Type :=
  | MsgEmptyList
  | MsgStart (nb_path : Path)
  | MsgFailedSaved (nb_path failed_path : Path)
  | MsgDone (out_path : Path)
  | MsgHalted (nb_path : Path) (e : Exception)
  | MsgParallelStart
  | MsgParallelError (nb_path : Path) (e : Exception)
  | MsgFinished (out_dir : Path).

(** What the script does to its environment, in order.  [EvCall] marks
    the entry into [run_notebook]. *)
Inductive Event : Type :=
  | EvCall (nb_path : Path)
  | EvPrint (m : Msg)
  | EvRead (p : Path)
  | EvEngine (ep : EngineConfig) (resources : string)
  | EvMkdir (d : Path)
  | EvWrite (p : Path) (doc : Notebook)
  | EvPool (workers : Z).

Record World : Type := mkWorld {
  fs : FS;
  getcwd : string;
  trace : list Event
}.

Definition log (ev : Event) (w : World) : World :=
  {| fs := fs w; getcwd := getcwd w; trace := trace w ++ [ev] |}.

Definition set_fs (m : FS) (w : World) : World :=
  {| fs := m; getcwd := getcwd w; trace := trace w |}.

(** *** State and exceptions *)

Definition M (A : Type) : Type := World -> Res A * World.

Definition ret {A} (a : A) : M A := fun w => (Done a, w).

Definition bind {A B} (m : M A) (k : A -> M B) : M B :=
  fun w => match m w with
           | (Done a, w') => k a w'
           | (Raise e, w') => (Raise e, w')
           end.

Definition raise {A} (e : BaseException) : M A := fun w => (Raise e, w).

(** [try: m  except Exception as e: h e] *)
Definition try_except {A} (m : M A) (h : Exception -> M A) : M A :=
  fun w => match m w with
           | (Raise (Exc e), w') => h e w'
           | r => r
           end.

(** [sys.exit(code)] *)
Definition sys_exit {A} (code : Z) : M A := raise (SystemExit code).

(** [for x in l: body x] *)
Fixpoint for_each {A} (l : list A) (body : A -> M unit) : M unit :=
  match l with
  | [] => ret tt
  | x :: l' => bind (body x) (fun _ => for_each l' body)
  end.

(** *** Primitives *)

Definition emit (ev : Event) : M unit := fun w => (Done tt, log ev w).

Definition print (m : Msg) : M unit := emit (EvPrint m).

(** [Path.cwd()] *)
Definition Path_cwd : M Path := fun w => (Done (PurePath.of_str (getcwd w)), w).

(** [p.resolve()] *)
Definition Path_resolve (p : Path) : M Path :=
  fun w => (Done (PurePath.resolve (PurePath.of_str (getcwd w)) p), w).

(** [p.exists()] *)
Definition Path_exists (p : Path) : M bool :=
  fun w => (Done (bool_decide (is_Some (fs w !! p))), w).

(** [with p.open("r") as f: nbformat.read(f, as_version=4)] *)
Definition read_notebook (p : Path) : M Notebook :=
  bind (emit (EvRead p)) (fun _ w =>
    match fs w !! p with
    | Some (NbFile nb) => (Done nb, w)
    | Some RawFile => (Raise (Exc (OtherError "NotJSONError")), w)
    | Some Dir => (Raise (Exc (OtherError "IsADirectoryError")), w)
    | None => (Raise (Exc (FileNotFoundError p)), w)
    end).

(** How [d.mkdir(parents=True, exist_ok=True)] ends: every directory is
    there, a regular file is where a directory should be, or the operating
    system refuses to make a directory. *)
Inductive MkdirEnd : Type :=
  | DirsMade
  | InTheWay
  | Refused (kind : string).

(** The directories [d.mkdir(parents=True, exist_ok=True)] makes along the
    components [ps] from the directory at [acc]: [os.mkdir] of every prefix
    of the path that holds nothing, up to the first one that holds a
    regular file or that the operating system refuses to make. *)
Fixpoint make_dirs (s : gmap Path node) (no : gmap Path string)
    (rooted : bool) (acc ps : list string) : MkdirEnd * gmap Path node :=
  match ps with
  | [] => (DirsMade, s)
  | c :: ps' =>
      let acc' := PurePath.step rooted acc c in
      match held s rooted acc' with
      | Some Dir => make_dirs s no rooted acc' ps'
      | Some _ => (InTheWay, s)
      | None =>
          match no !! mkPath rooted (rev acc') with
          | Some kind => (Refused kind, s)
          | None =>
              make_dirs (<[mkPath rooted (rev acc') := Dir]> s) no rooted
                        acc' ps'
          end
      end
  end.

(** The file system after [d.mkdir(parents=True, exist_ok=True)]. *)
Definition made (m : FS) (d : Path) : FS :=
  mkFS (make_dirs (store m) (denied m) (anchored d) [] (parts d)).2 (denied m).

(** The error of [d.mkdir(parents=True, exist_ok=True)], if it has one.
    With a regular file in the way it is the error of the first
    [os.mkdir(d)] when that one stops at the file, and the
    [FileExistsError] of the [os.mkdir] of the prefix that is the file
    otherwise ([exist_ok] only accepts a directory). *)
Definition mkdir_error (m : FS) (d : Path) : option Exception :=
  match (make_dirs (store m) (denied m) (anchored d) [] (parts d)).1 with
  | DirsMade => None
  | Refused kind => Some (OtherError kind)
  | InTheWay =>
      match walk (store m) (anchored d) [] (parts d) with
      | NotDirectory => Some (OtherError "NotADirectoryError")
      | Reached _ | NoEntry => Some (OtherError "FileExistsError")
      end
  end.

(** [d.mkdir(parents=True, exist_ok=True)]: the directories made before
    an error stay. *)
Definition mkdir_p (d : Path) : M unit :=
  bind (emit (EvMkdir d)) (fun _ w =>
    (match mkdir_error (fs w) d with
     | Some e => Raise (Exc e)
     | None => Done tt
     end,
     set_fs (made (fs w) d) w)).

(** The error of [p.open("w")], if it has one: the walk along [p] stops
    before its end, a directory is at its end, or the operating system
    refuses to open the file there. *)
Definition open_error (m : FS) (p : Path) : option Exception :=
  match walk (store m) (anchored p) [] (parts p) with
  | NoEntry => Some (FileNotFoundError p)
  | NotDirectory => Some (OtherError "NotADirectoryError")
  | Reached acc =>
      match held (store m) (anchored p) acc with
      | Some Dir => Some (OtherError "IsADirectoryError")
      | _ =>
          match denied m !! mkPath (anchored p) (rev acc) with
          | Some kind => Some (OtherError kind)
          | None => None
          end
      end
  end.

(** [with p.open("w") as f: nbformat.write(doc, f)]: the file is written
    once it could be opened. *)
Definition write_notebook (p : Path) (doc : Notebook) : M unit :=
  fun w =>
    match open_error (fs w) p with
    | Some e => (Raise (Exc e), w)
    | None =>
        (Done tt, set_fs (<[p := NbFile doc]> (fs w)) (log (EvWrite p doc) w))
    end.

(** [ep.preprocess(nb, resources=...)] *)
Definition preprocess (engine : Engine) (ep : EngineConfig)
    (nb : Notebook) (resources : string) : M Outcome :=
  bind (emit (EvEngine ep resources)) (fun _ w =>
    let '(o, m) := engine ep nb resources (fs w) in
    (Done o, set_fs m w)).

(** *** Futures of a process pool *)

(** A task run to its end in a worker: what it returned or raised is kept
    for the future. *)
Definition settle {A} (m : M A) : M (Res A) :=
  fun w => let '(r, w') := m w in (Done r, w').

(** [fut.result()] *)
Definition result {A} (r : Res A) : M A := fun w => (r, w).

(** Removal of the element at an index. *)
Fixpoint pluck {A} (i : nat) (l : list A) {struct l} : option (A * list A) :=
  match l with
  | [] => None
  | x :: l' =>
      match i with
      | O => Some (x, l')
      | S i' =>
          match pluck i' l' with
          | Some (y, r) => Some (y, x :: r)
          | None => None
          end
      end
  end.

(** The order in which the submitted tasks complete.  The pool decides
    it; [sched] stands for its choices: at each step the next number
    picks one of the pending tasks (modulo their number, the first one
    once [sched] is used up).  [fuel] is the number of pending tasks. *)
Fixpoint completion_order {A} (fuel : nat) (sched : list nat)
    (pending : list A) : list A :=
  match fuel with
  | O => []
  | S fuel' =>
      let i := (hd O sched mod length pending)%nat in
      match pluck i pending with
      | Some (x, rest) => x :: completion_order fuel' (tail sched) rest
      | None => []
      end
  end.

End World.

Arguments NbFile {Notebook} nb.
Arguments RawFile {Notebook}.
Arguments Dir {Notebook}.
Arguments Returned {Notebook} doc.
Arguments Raised {Notebook} e doc.
Arguments EvCall {Notebook} nb_path.
Arguments EvPrint {Notebook} m.
Arguments EvRead {Notebook} p.
Arguments EvEngine {Notebook} ep resources.
Arguments EvMkdir {Notebook} d.
Arguments EvWrite {Notebook} p doc.
Arguments EvPool {Notebook} workers.
Arguments mkWorld {Notebook} fs getcwd trace.
Arguments fs {Notebook} w.
Arguments getcwd {Notebook} w.
Arguments trace {Notebook} w.
Arguments log {Notebook} ev w.
Arguments set_fs {Notebook} m w.
Arguments ret {Notebook A} a w.
Arguments bind {Notebook A B} m k w.
Arguments raise {Notebook A} e w.
Arguments try_except {Notebook A} m h w.
Arguments sys_exit {Notebook A} code w.
Arguments for_each {Notebook A} l body w.
Arguments emit {Notebook} ev w.
Arguments print {Notebook} m w.
Arguments Path_cwd {Notebook} w.
Arguments Path_resolve {Notebook} p w.
Arguments Path_exists {Notebook} p w.
Arguments read_notebook {Notebook} p w.
Arguments mkFS {Notebook} store denied.
Arguments store {Notebook} f.
Arguments denied {Notebook} f.
Arguments held {Notebook} s rooted acc.
Arguments walk {Notebook} s rooted acc ps.
Arguments make_dirs {Notebook} s no rooted acc ps.
Arguments made {Notebook} m d.
Arguments mkdir_error {Notebook} m d.
Arguments open_error {Notebook} m p.
Arguments mkdir_p {Notebook} d w.
Arguments write_notebook {Notebook} p doc w.
Arguments preprocess {Notebook} engine ep nb resources w.
Arguments settle {Notebook A} m w.
Arguments result {Notebook A} r w.

End Host.

(* ===================================================================== *)
(** ** The script *)
(* ===================================================================== *)

Module Runner.

Import Host.

(** The constants at the top of the script. *)
Record Config : Type := mkConfig {
  NOTEBOOKS : list string;
  KERNEL_NAME : string;
  TIMEOUT_SEC : Z;
  ALLOW_ERRORS : bool;
  OUT_DIRNAME : string
}.

(** The values the script ships with. *)
Definition shipped : Config :=
  {| NOTEBOOKS := [ "code/03a_train_test_split.ipynb";
                    "code/03b_feature_extraction.ipynb";
                    "code/03c_feature_engineering.ipynb";
                    "code/04a_modeling_lr.ipynb";
                    "code/04b_modeling_lr.ipynb" ];
     KERNEL_NAME := "python3";
     TIMEOUT_SEC := 3600;
     ALLOW_ERRORS := false;
     OUT_DIRNAME := "executed" |}.

Notation "'let*' x ':=' m 'in' k" := (bind m (fun x => k))
  (at level 10, x name, m at level 100, k at level 200).
Notation "m >> k" := (bind m (fun _ => k))
  (at level 100, k at level 200, right associativity).

Section Script.

Variable Notebook : Type.
Variable engine : Engine Notebook.
Variable cfg : Config.

(** [out_dir / f"{nb_path.stem}_FAILED.ipynb"] *)
Definition failed_path_of (nb_path out_dir : Path) : Path :=
  PurePath.div out_dir (PurePath.stem nb_path +:+ "_FAILED.ipynb").

(** [out_dir / f"{nb_path.stem}_executed.ipynb"] *)
Definition out_path_of (nb_path out_dir : Path) : Path :=
  PurePath.div out_dir (PurePath.stem nb_path +:+ "_executed.ipynb").

(** [run_notebook(nb_path, out_dir)], lines 44-83.  The two readings of
    the clock only feed the elapsed time of the last message and are left
    out. *)
Definition run_notebook (nb_path out_dir : Path) : M Notebook Path :=
  emit (EvCall nb_path) >>
  let* present := Path_exists nb_path in
  if negb present then raise (Exc (FileNotFoundError nb_path)) else
  print (MsgStart nb_path) >>
  let* nb := read_notebook nb_path in
  let resources := PurePath.str (PurePath.parent nb_path) in
  let ep := {| timeout := TIMEOUT_SEC cfg;
               kernel_name := KERNEL_NAME cfg;
               allow_errors := ALLOW_ERRORS cfg |} in
  let* o := preprocess engine ep nb resources in
  match o with
  | Raised (CellExecutionError msg) doc =>
      mkdir_p out_dir >>
      let failed_path := failed_path_of nb_path out_dir in
      write_notebook failed_path doc >>
      print (MsgFailedSaved nb_path failed_path) >>
      raise (Exc (CellExecutionError msg))
  | Raised e _ => raise (Exc e)
  | Returned doc =>
      mkdir_p out_dir >>
      let out_path := out_path_of nb_path out_dir in
      write_notebook out_path doc >>
      print (MsgDone out_path) >>
      ret out_path
  end.

(** [(base_dir / nb).resolve() if not Path(nb).is_absolute() else Path(nb)] *)
Definition locate (base_dir : Path) (nb : string) : M Notebook Path :=
  if negb (PurePath.is_absolute (PurePath.of_str nb))
  then Path_resolve (PurePath.div base_dir nb)
  else ret (PurePath.of_str nb).

(** The path [locate] gives for the entry [nb] in working directory [cwd]. *)
Definition located (cwd nb : string) : Path :=
  if negb (PurePath.is_absolute (PurePath.of_str nb))
  then PurePath.resolve (PurePath.of_str cwd)
                        (PurePath.div (PurePath.of_str cwd) nb)
  else PurePath.of_str nb.

(** The sequential loop, lines 100-106. *)
Definition seq_phase (base_dir out_dir : Path) (seq_part : list string)
    : M Notebook unit :=
  for_each seq_part (fun nb =>
    let* nb_path := locate base_dir nb in
    try_except
      (run_notebook nb_path out_dir >> ret tt)
      (fun e => print (MsgHalted nb_path e) >> sys_exit 1)).

(** The submission loop, lines 113-115: the futures with the path each
    one stands for, in submission order. *)
Fixpoint submit_all (base_dir out_dir : Path) (par_part : list string)
    : M Notebook (list (Path * M Notebook Path)) :=
  match par_part with
  | [] => ret []
  | nb :: rest =>
      let* nb_path := locate base_dir nb in
      let* futures := submit_all base_dir out_dir rest in
      ret ((nb_path, run_notebook nb_path out_dir) :: futures)
  end.

(** The workers run the submitted tasks; each task is taken to run
    without interleaving with its sibling, the tasks ending in the order
    [sched] decides.  The result is the settled futures in completion
    order. *)
Fixpoint run_pool (order : list (Path * M Notebook Path))
    : M Notebook (list (Path * Res Path)) :=
  match order with
  | [] => ret []
  | (nb_path, task) :: rest =>
      let* r := settle task in
      let* done := run_pool rest in
      ret ((nb_path, r) :: done)
  end.

(** The loop over [as_completed(futures)], lines 117-124; the result is
    [had_error]. *)
Fixpoint drain (completed : list (Path * Res Path)) (had_error : bool)
    : M Notebook bool :=
  match completed with
  | [] => ret had_error
  | (nb_path, r) :: rest =>
      let* e := try_except
                  (result r >> ret had_error)
                  (fun e => print (MsgParallelError nb_path e) >> ret true) in
      drain rest e
  end.

(** The parallel phase, lines 109-126. *)
Definition par_phase (sched : list nat) (base_dir out_dir : Path)
    (par_part : list string) : M Notebook unit :=
  if Py.truthy par_part then
    print MsgParallelStart >>
    emit (EvPool (Z.min 2 (Py.len par_part))) >>
    let* futures := submit_all base_dir out_dir par_part in
    let* completed := run_pool (completion_order (length futures) sched futures) in
    let* had_error := drain completed false in
    if had_error && negb (ALLOW_ERRORS cfg) then sys_exit 1 else ret tt
  else ret tt.

(** [main()], lines 85-129. *)
Definition main (sched : list nat) : M Notebook unit :=
  if negb (Py.truthy (NOTEBOOKS cfg)) then
    print MsgEmptyList >>
    sys_exit 2
  else
    let* base_dir := Path_cwd in
    let out_dir := PurePath.div base_dir (OUT_DIRNAME cfg) in
    let seq_part := Split.seq_part (NOTEBOOKS cfg) in
    let par_part := Split.par_part (NOTEBOOKS cfg) in
    seq_phase base_dir out_dir seq_part >>
    par_phase sched base_dir out_dir par_part >>
    print (MsgFinished out_dir).

(** The exit status of the process that runs [main()]: 0 when [main]
    returns, the argument of [sys.exit] when it was called, 1 when an
    exception reaches the top. *)
Definition exit_status (r : Res unit) : Z :=
  match r with
  | Done _ => 0
  | Raise (SystemExit code) => code
  | Raise (Exc _) => 1
  end.

Definition run (sched : list nat) (w : World Notebook) : Z * World Notebook :=
  let '(r, w') := main sched w in (exit_status r, w').

End Script.

(** *** Readings of a trace *)

(** The paths [run_notebook] was entered with. *)
Definition calls {Notebook} (t : list (Event Notebook)) : list Path :=
  omap (fun ev => match ev with EvCall p => Some p | _ => None end) t.

(** The files written. *)
Definition writes {Notebook} (t : list (Event Notebook)) : list Path :=
  omap (fun ev => match ev with EvWrite p _ => Some p | _ => None end) t.

(** The directories [mkdir] was called on. *)
Definition mkdirs {Notebook} (t : list (Event Notebook)) : list Path :=
  omap (fun ev => match ev with EvMkdir d => Some d | _ => None end) t.

(** The files read. *)
Definition reads {Notebook} (t : list (Event Notebook)) : list Path :=
  omap (fun ev => match ev with EvRead p => Some p | _ => None end) t.

(** The number of engine invocations. *)
Definition engine_runs {Notebook} (t : list (Event Notebook)) : nat :=
  length (omap (fun ev => match ev with
                          | EvEngine ep r => Some (ep, r)
                          | _ => None
                          end) t).

(** The sizes of the pools opened. *)
Definition pools {Notebook} (t : list (Event Notebook)) : list Z :=
  omap (fun ev => match ev with EvPool n => Some n | _ => None end) t.

(** *** Shorthands for stating what a call does *)

(** The world after the events [evs], the files unchanged. *)
Definition logs {Notebook} (evs : list (Event Notebook)) (w : World Notebook)
    : World Notebook :=
  {| fs := fs w; getcwd := getcwd w; trace := trace w ++ evs |}.

(** The engine configuration [run_notebook] builds. *)
Definition ep_of (cfg : Config) : EngineConfig :=
  {| timeout := TIMEOUT_SEC cfg;
     kernel_name := KERNEL_NAME cfg;
     allow_errors := ALLOW_ERRORS cfg |}.

(** The files after [out_dir] was made and [doc] written at [p]. *)
Definition saved {Notebook} (m : FS Notebook)
    (out_dir p : Path) (doc : Notebook) : FS Notebook :=
  <[p := NbFile doc]> (made m out_dir).

(** The error that keeps the copy at [p] from being saved in [out_dir],
    if there is one: that of the [mkdir], or else that of the [open]. *)
Definition save_error {Notebook} (m : FS Notebook) (out_dir p : Path)
    : option Exception :=
  match mkdir_error m out_dir with
  | Some e => Some e
  | None => open_error (made m out_dir) p
  end.

(** The files the engine leaves when [run_notebook] reaches it with the
    notebook at [nb_path]. *)
Definition engine_leaves {Notebook} (engine : Engine Notebook) (cfg : Config)
    (nb_path : Path) (w : World Notebook) : FS Notebook :=
  match fs w !! nb_path with
  | Some (NbFile nb) =>
      snd (engine (ep_of cfg) nb
                  (PurePath.str (PurePath.parent nb_path)) (fs w))
  | _ => fs w
  end.

(** What the engine answers when [run_notebook] reaches it with the
    notebook at [nb_path]; [None] when the call ends before the engine. *)
Definition engine_answer {Notebook} (engine : Engine Notebook) (cfg : Config)
    (nb_path : Path) (w : World Notebook) : option (Outcome Notebook) :=
  match fs w !! nb_path with
  | Some (NbFile nb) =>
      Some (fst (engine (ep_of cfg) nb
                        (PurePath.str (PurePath.parent nb_path)) (fs w)))
  | _ => None
  end.

(** The settled futures of tasks that completed in the order [ps], from
    world to world: each task is a whole call of [run_notebook], started in
    the world its predecessor left, and its result is kept whatever the
    results of the others are. *)
Inductive settled {Notebook} (engine : Engine Notebook) (cfg : Config)
    (out_dir : Path)
    : World Notebook -> list Path -> list (Path * Res Path) ->
      World Notebook -> Prop :=
  | settled_nil w : settled engine cfg out_dir w [] [] w
  | settled_cons w p r w' ps rs w'' :
      run_notebook Notebook engine cfg p out_dir w = (r, w') ->
      settled engine cfg out_dir w' ps rs w'' ->
      settled engine cfg out_dir w (p :: ps) ((p, r) :: rs) w''.

Definition is_cell_error (e : Exception) : bool :=
  match e with CellExecutionError _ => true | _ => false end.

Definition is_raise {A} (r : Res A) : bool :=
  match r with Raise _ => true | Done _ => false end.

End Runner.

(* ===================================================================== *)
(** ** Concrete runs *)
(* ===================================================================== *)

(** A small setting to run the script in: a notebook is the number of its
    executed cells, the engine executes one more cell and returns, except
    on the notebook [0], in which a cell fails, and on the notebook [7], on
    which the kernel dies. *)
Module Scenario.

Import Host Runner.

Definition engine : Engine nat :=
  fun _ nb _ m =>
    match nb with
    | 0%nat => (Raised (CellExecutionError "boom") 0%nat, m)
    | 7%nat => (Raised (OtherError "DeadKernelError") 7%nat, m)
    | _ => (Returned (S nb), m)
    end.

Definition cwd : string := "/w".

(** The file system with [x] at [p], the directory of [p] made. *)
Definition place (p : Path) (x : node nat) (m : FS nat) : FS nat :=
  <[p := x]> (made m (PurePath.parent p)).

(** The world with the working directory and the given notebooks, by
    configured entry, and an empty trace. *)
Definition world (files : list (string * nat)) : World nat :=
  mkWorld
    (foldr (fun f => place (located cwd f.1) (NbFile f.2))
           (made ∅ (PurePath.of_str cwd)) files)
    cwd [].

Definition config (notebooks : list string) (allow : bool) : Config :=
  {| NOTEBOOKS := notebooks;
     KERNEL_NAME := "python3";
     TIMEOUT_SEC := 3600;
     ALLOW_ERRORS := allow;
     OUT_DIRNAME := "executed" |}.

(** [/w/executed] *)
Definition out_dir : Path := PurePath.div (PurePath.of_str cwd) "executed".

(** Four notebooks of which the second is missing: the sequential subset
    is the first two. *)
Definition halting_cfg : Config :=
  config ["a.ipynb"; "b.ipynb"; "c.ipynb"; "d.ipynb"] false.

Definition halting_world : World nat :=
  world [("a.ipynb", 1%nat); ("c.ipynb", 1%nat); ("d.ipynb", 1%nat)].

(** The world after the first sequential notebook of [halting_cfg]. *)
Definition halting_w1 : World nat :=
  (seq_phase nat engine halting_cfg (PurePath.of_str cwd) out_dir
     ["a.ipynb"] halting_world).2.

(** The world after the failed call on the second. *)
Definition halting_w2 : World nat :=
  (run_notebook nat engine halting_cfg (located cwd "b.ipynb") out_dir
     halting_w1).2.

(** Two notebooks, both in the parallel subset; a cell of the second
    fails. *)
Definition pair_cfg (allow : bool) : Config :=
  config ["ok.ipynb"; "bad.ipynb"] allow.

Definition pair_world : World nat :=
  world [("ok.ipynb", 1%nat); ("bad.ipynb", 0%nat)].

(** One relative and one absolute entry. *)
Definition mixed_cfg : Config := config ["a.ipynb"; "/abs/b.ipynb"] false.

(** The files of [pair_world] in a working directory in which the
    operating system refuses to make the output directory. *)
Definition read_only_world : World nat :=
  mkWorld
    (mkFS (store (fs pair_world)) {[ out_dir := "PermissionError" ]})
    cwd [].

(** The working directory with two notebooks, a cell of the second
    failing, and with a regular file where the output directory should
    be. *)
Definition blocked_world : World nat :=
  mkWorld
    (place (located cwd "ok.ipynb") (NbFile 1%nat)
       (place (located cwd "bad.ipynb") (NbFile 0%nat)
          (place out_dir RawFile ∅)))
    cwd [].

End Scenario.

(* ===================================================================== *)
(** ** Further readings of a run *)
(* ===================================================================== *)

Module Obs.

Import Host Runner.

(** The engine invocations of a trace: the configuration and the working
    directory of each. *)
Definition engine_calls {Notebook} (t : list (Event Notebook))
    : list (EngineConfig * string) :=
  omap (fun ev => match ev with
                  | EvEngine ep r => Some (ep, r)
                  | _ => None
                  end) t.

(** An engine whose notebooks leave the file system as they find it. *)
Definition quiet {Notebook} (engine : Engine Notebook) : Prop :=
  forall ep nb r m, (engine ep nb r m).2 = m.

(** The lines [main] prints itself, as opposed to those of
    [run_notebook]. *)
Definition is_driver_line (m : Msg) : bool :=
  match m with
  | MsgStart _ | MsgFailedSaved _ _ | MsgDone _ => false
  | _ => true
  end.

Definition driver_lines {Notebook} (t : list (Event Notebook)) : list Msg :=
  omap (fun ev => match ev with
                  | EvPrint m => if is_driver_line m then Some m else None
                  | _ => None
                  end) t.

(** The lines the loop over the completed futures prints: one for each
    future that holds an exception, in completion order. *)
Definition error_lines (completed : list (Path * Res Path)) : list Msg :=
  omap (fun pr => match pr.2 with
                  | Raise (Exc e) => Some (MsgParallelError pr.1 e)
                  | _ => None
                  end) completed.

(** A future that holds a returned value. *)
Definition returned (pr : Path * Res Path) : Prop := is_raise pr.2 = false.

(** A file system with a directory at [/w/data], a file that is no
    notebook at [/w/notes.txt] and a notebook at [/w/a.ipynb]. *)
Definition mixed_world : World nat :=
  mkWorld
    (<[mkPath true ["w"; "data"] := Dir]>
       (<[mkPath true ["w"; "notes.txt"] := RawFile]>
          (<[mkPath true ["w"; "a.ipynb"] := NbFile 1%nat]>
             (<[mkPath true ["w"] := Dir]> ∅))))
    "/w" [].

(** The engine that executes one more cell and leaves the files alone. *)
Definition steady_engine : Engine nat :=
  fun _ nb _ m => (Returned (S nb), m).

(** Three notebooks, all present: one sequential, two parallel. *)
Definition ok_cfg : Config :=
  Scenario.config ["a.ipynb"; "b.ipynb"; "c.ipynb"] false.

Definition ok_world : World nat :=
  Scenario.world [("a.ipynb", 1%nat); ("b.ipynb", 2%nat); ("c.ipynb", 3%nat)].

(** The events of the run of [ok_cfg] in [ok_world] that follow the pool
    event, the tasks completing in submission order. *)
Definition ok_after_pool : list (Event nat) :=
  drop 9 (trace (run nat steady_engine ok_cfg [] ok_world).2).

(** The events of that run that precede the pool event. *)
Definition ok_before_pool : list (Event nat) :=
  take 8 (trace (run nat steady_engine ok_cfg [] ok_world).2).

End Obs.

(* ===================================================================== *)
(** ** Facts about the split *)
(* ===================================================================== *)

Section SplitFacts.

Context {A : Type}.
Implicit Types l : list A.

Lemma slice_until_minus2 l :
  Py.slice None (Some (-2)) l = take (length l - 2) l.
Proof.
  unfold Py.slice, Py.bound, Py.len; simpl.
  f_equal; lia.
Qed.

Lemma slice_from_minus2 l :
  Py.slice (Some (-2)) None l = drop (length l - 2) l.
Proof.
  unfold Py.slice, Py.bound, Py.len; simpl.
  replace (Z.to_nat (Z.max 0 (-2 + Z.of_nat (length l))))
    with (length l - 2)%nat by lia.
  apply take_ge. rewrite length_drop. lia.
Qed.

Lemma seq_part_take l : Split.seq_part l = take (length l - 2) l.
Proof. unfold Split.seq_part. destruct (_ <=? _); apply slice_until_minus2. Qed.

Lemma par_part_drop l : Split.par_part l = drop (length l - 2) l.
Proof. unfold Split.par_part. destruct (_ <=? _); apply slice_from_minus2. Qed.

Lemma par_part_length l : length (Split.par_part l) = Nat.min 2 (length l).
Proof. rewrite par_part_drop, length_drop. lia. Qed.

Lemma par_part_truthy l : l <> [] -> Py.truthy (Split.par_part l) = true.
Proof.
  intros Hne. pose proof (par_part_length l) as Hlen.
  destruct (Split.par_part l); [|reflexivity].
  destruct l; [done|]. simpl in Hlen. lia.
Qed.

(** C1.  The last [min(2, N)] entries of a list of [N] notebooks are the
    parallel subset and the entries before them are the sequential
    subset.  For [N >= 3] the sequential subset is the first [N - 2]
    entries, in their order, and the parallel subset is the last two; for
    [N = 1] and [N = 2] the sequential subset is empty and the parallel
    subset is the whole list. *)
Theorem partition_rule l :
  let n := length l in
  Split.seq_part l = take (n - Nat.min 2 n) l /\
  Split.par_part l = drop (n - Nat.min 2 n) l /\
  length (Split.par_part l) = Nat.min 2 n /\
  ((3 <= n)%nat ->
     Split.seq_part l = take (n - 2) l /\
     Split.par_part l = drop (n - 2) l /\
     length (Split.par_part l) = 2%nat) /\
  (n = 1%nat \/ n = 2%nat ->
     Split.seq_part l = [] /\ Split.par_part l = l).
Proof.
  intros n. subst n.
  rewrite seq_part_take, par_part_drop, length_drop.
  replace (length l - Nat.min 2 (length l))%nat with (length l - 2)%nat by lia.
  split_and!; try done; try lia.
  - intros Hn. split_and!; [done | done | lia].
  - intros [Hn|Hn]; rewrite Hn; done.
Qed.

Lemma seq_par_app l : Split.seq_part l ++ Split.par_part l = l.
Proof. rewrite seq_part_take, par_part_drop. apply take_drop. Qed.

Lemma par_part_subset l x : x ∈ Split.par_part l -> x ∈ l.
Proof. intros Hx. rewrite <- (seq_par_app l). apply elem_of_app. by right. Qed.

Lemma seq_part_prefix_subset l k x : x ∈ take k (Split.seq_part l) -> x ∈ l.
Proof.
  intros Hx. rewrite <- (seq_par_app l). apply elem_of_app. left.
  rewrite <- (take_drop k (Split.seq_part l)). apply elem_of_app. by left.
Qed.

(** C9.  The sequential subset followed by the parallel subset is the
    configured list itself: nothing is dropped, duplicated or reordered.
    This holds for every list, the empty one included. *)
Theorem partition_lossless l :
  Split.seq_part l ++ Split.par_part l = l /\
  (length (Split.seq_part l) + length (Split.par_part l))%nat = length l.
Proof.
  split; [apply seq_par_app|].
  rewrite <- length_app. by rewrite seq_par_app.
Qed.

End SplitFacts.

(** The list the script ships with: three sequential notebooks, then two
    parallel ones. *)
Example shipped_split :
  Split.seq_part (Runner.NOTEBOOKS Runner.shipped)
  = ["code/03a_train_test_split.ipynb";
     "code/03b_feature_extraction.ipynb";
     "code/03c_feature_engineering.ipynb"] /\
  Split.par_part (Runner.NOTEBOOKS Runner.shipped)
  = ["code/04a_modeling_lr.ipynb"; "code/04b_modeling_lr.ipynb"].
Proof. split; reflexivity. Qed.

(** The rule on a list of five entries and on a list of two. *)
Lemma partition_rule_witness :
  Split.seq_part ["a"; "b"; "c"; "d"; "e"] = ["a"; "b"; "c"] /\
  Split.par_part ["a"; "b"; "c"; "d"; "e"] = ["d"; "e"] /\
  Split.seq_part ["a"; "b"] = [] /\
  Split.par_part ["a"; "b"] = ["a"; "b"].
Proof.
  destruct (partition_rule ["a"; "b"; "c"; "d"; "e"]) as (_ & _ & _ & H3 & _).
  destruct (partition_rule ["a"; "b"]) as (_ & _ & _ & _ & H2).
  destruct H3 as (Hs & Hp & _); [simpl; lia|].
  destruct H2 as (Hs2 & Hp2); [right; reflexivity|].
  repeat split; assumption.
Defined.

(* ===================================================================== *)
(** ** Facts about strings and paths *)
(* ===================================================================== *)

Section StringFacts.

Import PurePath.

Lemma append_cons (c : ascii) (s t : string) :
  String c s +:+ t = String c (s +:+ t).
Proof. reflexivity. Qed.

Lemma append_nil_l (t : string) : "" +:+ t = t.
Proof. reflexivity. Qed.

Lemma append_nil_r (s : string) : s +:+ "" = s.
Proof.
  induction s as [|c s IH]; [reflexivity|].
  by rewrite append_cons, IH.
Qed.

Lemma append_assoc (s t u : string) : (s +:+ t) +:+ u = s +:+ t +:+ u.
Proof.
  induction s as [|c s IH]; [reflexivity|].
  by rewrite !append_cons, IH.
Qed.

Lemma length_append (s t : string) :
  String.length (s +:+ t) = (String.length s + String.length t)%nat.
Proof.
  induction s as [|c s IH]; [reflexivity|].
  rewrite append_cons; simpl. by rewrite IH.
Qed.

(** Cancellation of a one-character suffix. *)
Lemma append_char_inj (s t : string) (a b : ascii) :
  s +:+ String a "" = t +:+ String b "" -> s = t /\ a = b.
Proof.
  revert t. induction s as [|c s IH]; intros [|d t] H;
    rewrite ?append_cons, ?append_nil_l in H.
  - by inversion H.
  - inversion H as [[Hc Ht]]. destruct t; discriminate.
  - inversion H as [[Hc Hs]]. destruct s; discriminate.
  - inversion H as [[Hc Hs]]. destruct (IH _ Hs) as [-> ->]. done.
Qed.

(** Cancellation of a common suffix. *)
Lemma append_inv_tail (u s t : string) : s +:+ u = t +:+ u -> s = t.
Proof.
  revert s t. induction u as [|c u IH]; intros s t H.
  - by rewrite !append_nil_r in H.
  - change (String c u) with (String c "" +:+ u) in H.
    rewrite <- !append_assoc in H. apply IH in H.
    by apply append_char_inj in H as [? _].
Qed.

(** The two suffixes never produce the same name. *)
Lemma suffixes_apart (s t : string) :
  s +:+ "_executed.ipynb" <> t +:+ "_FAILED.ipynb".
Proof.
  change "_executed.ipynb" with ("_execute" +:+ String "d" "" +:+ ".ipynb").
  change "_FAILED.ipynb" with ("_FAILE" +:+ String "D" "" +:+ ".ipynb").
  rewrite <- !append_assoc. intros H.
  apply append_inv_tail in H.
  apply append_char_inj in H as [_ H]. discriminate.
Qed.

Lemma slash_free_append (s t : string) :
  slash_free (s +:+ t) = slash_free s && slash_free t.
Proof.
  induction s as [|c s IH]; [reflexivity|].
  rewrite append_cons; simpl.
  rewrite IH. by destruct (is_slash c).
Qed.

Lemma slash_free_substring (n m : nat) (s : string) :
  slash_free s = true -> slash_free (String.substring n m s) = true.
Proof.
  revert n m. induction s as [|c s IH]; intros n m H; simpl in *.
  - by destruct n, m.
  - apply andb_true_iff in H as [Hc Hs].
    destruct n as [|n]; [destruct m as [|m]|]; simpl; auto.
    rewrite Hc; simpl. by apply IH.
Qed.

Lemma split_slash_nonempty (s : string) : split_slash s <> [].
Proof.
  induction s as [|c s IH]; simpl; [done|].
  destruct (is_slash c); [done|]. by destruct (split_slash s).
Qed.

Lemma split_slash_free (s : string) :
  slash_free s = true -> split_slash s = [s].
Proof.
  induction s as [|c s IH]; simpl; [done|].
  intros [Hc Hs]%andb_true_iff.
  destruct (is_slash c); [done|]. by rewrite IH.
Qed.

Lemma split_slash_components (s : string) :
  Forall (fun c => slash_free c = true) (split_slash s).
Proof.
  induction s as [|c s IH]; simpl; [by repeat constructor|].
  destruct (is_slash c) eqn:Hc; [by constructor|].
  destruct (split_slash s) as [|h t]; [by repeat constructor; simpl; rewrite Hc|].
  inversion IH; subst. constructor; [simpl; by rewrite Hc | done].
Qed.

(** Splitting a string that ends in a slash-free tail: the tail extends
    the last component. *)
Lemma split_slash_append (s t : string) :
  slash_free t = true ->
  split_slash (s +:+ t) =
    removelast (split_slash s) ++ [List.last (split_slash s) "" +:+ t].
Proof.
  intros Ht. induction s as [|c s IH];
    rewrite ?append_cons, ?append_nil_l; simpl.
  - by apply split_slash_free.
  - pose proof (split_slash_nonempty s) as Hne.
    destruct (is_slash c).
    + rewrite IH. destruct (split_slash s); done.
    + rewrite IH. destruct (split_slash s) as [|h [|h' r]]; done.
Qed.

End StringFacts.

Section PathFacts.

Import PurePath.

Lemma kept_long (s : string) : (2 <= String.length s)%nat -> kept s = true.
Proof.
  intros H. unfold kept.
  destruct s as [|a [|b s]]; simpl in H; try lia.
  simpl. by destruct (Ascii.eqb a ".").
Qed.

Lemma kept_append (s t : string) :
  (2 <= String.length t)%nat -> kept (s +:+ t) = true.
Proof. intros H. apply kept_long. rewrite length_append. lia. Qed.

Lemma starts_with_slash_append (s t u : string) :
  starts_with_slash t = starts_with_slash u ->
  starts_with_slash (s +:+ t) = starts_with_slash (s +:+ u).
Proof. by destruct s. Qed.

Lemma last_filter_snoc {A} (f : A -> bool) (l : list A) (x d : A) :
  f x = true -> List.last (List.filter f (l ++ [x])) d = x.
Proof.
  intros Hx. rewrite List.filter_app; simpl. rewrite Hx.
  apply List.last_last.
Qed.

(** The name of a parsed string that ends in a slash-free tail of two
    characters or more. *)
Lemma name_of_str_append (s t : string) :
  slash_free t = true -> (2 <= String.length t)%nat ->
  name (of_str (s +:+ t)) = List.last (split_slash s) "" +:+ t.
Proof.
  intros Ht Hlen. unfold name, of_str; simpl.
  rewrite split_slash_append by done.
  apply last_filter_snoc. by apply kept_append.
Qed.

(** A slash-free string of two characters or more parses to one relative
    component. *)
Lemma of_str_component (s : string) :
  slash_free s = true -> (2 <= String.length s)%nat ->
  of_str s = mkPath false [s].
Proof.
  intros Hs Hlen. unfold of_str.
  rewrite split_slash_free by done. simpl.
  rewrite kept_long by done. f_equal.
  destruct s as [|c s]; [done|]. simpl in *.
  apply andb_true_iff in Hs as [Hc _]. by destruct (is_slash c).
Qed.

Lemma joinpath_inj (d q1 q2 : Path) :
  anchored q1 = anchored q2 -> joinpath d q1 = joinpath d q2 -> q1 = q2.
Proof.
  unfold joinpath. destruct q1 as [a1 ps1], q2 as [a2 ps2]; simpl.
  intros <-. destruct a1; [done|].
  intros [= H]. apply app_inv_head in H. by subst.
Qed.

Lemma of_str_components (s : string) : components_ok (of_str s).
Proof.
  unfold components_ok, of_str; simpl. apply Forall_forall. intros c Hc.
  apply list_elem_of_In, List.filter_In in Hc as [Hc _].
  pose proof (split_slash_components s) as H.
  rewrite Forall_forall in H. apply H. by apply list_elem_of_In.
Qed.

Lemma joinpath_components (p q : Path) :
  components_ok p -> components_ok q -> components_ok (joinpath p q).
Proof.
  intros Hp Hq. unfold components_ok, joinpath in *.
  destruct (anchored q); [done|].
  simpl. by apply Forall_app.
Qed.

Lemma collapse_components (acc ps : list string) :
  Forall (fun c => slash_free c = true) acc ->
  Forall (fun c => slash_free c = true) ps ->
  Forall (fun c => slash_free c = true) (collapse acc ps).
Proof.
  revert acc. induction ps as [|c ps IH]; intros acc Hacc Hps; simpl.
  - by apply Forall_rev.
  - inversion Hps; subst. destruct (String.eqb c "..").
    + apply IH; [|done]. destruct acc; [done|]. by inversion Hacc.
    + apply IH; [|done]. by constructor.
Qed.

Lemma resolve_components (cwd p : Path) :
  components_ok cwd -> components_ok p -> components_ok (resolve cwd p).
Proof.
  intros Hc Hp. unfold components_ok, resolve; simpl.
  apply collapse_components; [constructor|].
  by apply joinpath_components.
Qed.

Lemma located_components (cwd nb : string) :
  components_ok (Runner.located cwd nb).
Proof.
  unfold Runner.located.
  destruct (negb _); [|apply of_str_components].
  apply resolve_components; [apply of_str_components|].
  apply joinpath_components; apply of_str_components.
Qed.

Lemma name_slash_free (p : Path) :
  components_ok p -> slash_free (name p) = true.
Proof.
  unfold components_ok, name.
  induction 1 as [|c ps Hc Hps IH]; simpl; [done|].
  by destruct ps.
Qed.

Lemma stem_slash_free (p : Path) :
  components_ok p -> slash_free (stem p) = true.
Proof.
  intros Hp. unfold stem. destruct (_ && _).
  - by apply slash_free_substring, name_slash_free.
  - by apply name_slash_free.
Qed.

(** [d / f"{stem}{suffix}"] for a slash-free stem. *)
Lemma div_component (d : Path) (s t : string) :
  slash_free s = true -> slash_free t = true -> (2 <= String.length t)%nat ->
  div d (s +:+ t) = mkPath (anchored d) (parts d ++ [s +:+ t]).
Proof.
  intros Hs Ht Hlen. unfold div.
  rewrite of_str_component; [done| |].
  - by rewrite slash_free_append, Hs, Ht.
  - rewrite length_append. lia.
Qed.

(** Two different slash-free suffixes after the same stem never give the
    same file, whatever the stem and the directory are. *)
Lemma div_suffix_apart (d : Path) (s t u : string) :
  slash_free t = true -> slash_free u = true ->
  (2 <= String.length t)%nat -> (2 <= String.length u)%nat ->
  starts_with_slash t = starts_with_slash u ->
  t <> u -> div d (s +:+ t) <> div d (s +:+ u).
Proof.
  intros Ht Hu Hlt Hlu Hst Hne Heq. unfold div in Heq.
  apply joinpath_inj in Heq.
  - apply (f_equal name) in Heq.
    rewrite !name_of_str_append in Heq by done.
    by apply (inj _) in Heq.
  - simpl. by apply starts_with_slash_append.
Qed.

End PathFacts.

(* ===================================================================== *)
(** ** Where the output of a notebook goes *)
(* ===================================================================== *)

Section OutputPaths.

Import PurePath Runner.

Lemma out_failed_apart (p d : Path) : out_path_of p d <> failed_path_of p d.
Proof.
  unfold out_path_of, failed_path_of.
  apply div_suffix_apart; try reflexivity; try (simpl; lia); discriminate.
Qed.

Lemma out_path_component (p d : Path) :
  components_ok p ->
  out_path_of p d = mkPath (anchored d) (parts d ++ [stem p +:+ "_executed.ipynb"]).
Proof.
  intros Hp. unfold out_path_of.
  apply div_component; [by apply stem_slash_free | done | simpl; lia].
Qed.

Lemma failed_path_component (p d : Path) :
  components_ok p ->
  failed_path_of p d = mkPath (anchored d) (parts d ++ [stem p +:+ "_FAILED.ipynb"]).
Proof.
  intros Hp. unfold failed_path_of.
  apply div_component; [by apply stem_slash_free | done | simpl; lia].
Qed.

(** C8, as the code has it.  The file a task writes is
    [<out_dir>/<stem>_executed.ipynb] or [<out_dir>/<stem>_FAILED.ipynb],
    the stem being that of the located notebook.  For two configured
    entries the two [_executed] files are the same file exactly when the
    stems are equal, likewise the two [_FAILED] files, and an [_executed]
    file is never a [_FAILED] file. *)
Theorem outputs_distinct_by_stem (cwd nb1 nb2 : string) (out_dir : Path) :
  let p1 := located cwd nb1 in
  let p2 := located cwd nb2 in
  (out_path_of p1 out_dir = out_path_of p2 out_dir <-> stem p1 = stem p2) /\
  (failed_path_of p1 out_dir = failed_path_of p2 out_dir <-> stem p1 = stem p2) /\
  out_path_of p1 out_dir <> failed_path_of p2 out_dir /\
  failed_path_of p1 out_dir <> out_path_of p2 out_dir.
Proof.
  intros p1 p2.
  pose proof (located_components cwd nb1) as H1.
  pose proof (located_components cwd nb2) as H2.
  fold p1 in H1. fold p2 in H2.
  rewrite !out_path_component, !failed_path_component by done.
  repeat split.
  - intros [= H%app_inv_head]. injection H as H. by apply append_inv_tail in H.
  - by intros ->.
  - intros [= H%app_inv_head]. injection H as H. by apply append_inv_tail in H.
  - by intros ->.
  - intros [= H%app_inv_head]. injection H as H. by apply suffixes_apart in H.
  - intros [= H%app_inv_head]. injection H as H. symmetry in H.
    by apply suffixes_apart in H.
Qed.

End OutputPaths.

(** Two notebooks of one directory with different names. *)
Lemma outputs_distinct_by_stem_witness :
  Runner.out_path_of (Runner.located "/w" "a/x.ipynb") (PurePath.of_str "/w/executed")
  <> Runner.out_path_of (Runner.located "/w" "a/y.ipynb") (PurePath.of_str "/w/executed").
Proof.
  intros H.
  destruct (outputs_distinct_by_stem "/w" "a/x.ipynb" "a/y.ipynb"
              (PurePath.of_str "/w/executed")) as ((Hstem & _) & _).
  specialize (Hstem H). vm_compute in Hstem. discriminate Hstem.
Defined.

(* ===================================================================== *)
(** ** Facts about the file system *)
(* ===================================================================== *)

Section FSFacts.

Import Host Runner.

Variable Notebook : Type.

Implicit Types (s : gmap Path (node Notebook)) (m : FS Notebook).
Implicit Types (p q d : Path) (acc ps : list string).

(** The end of some steps is a directory whatever the store holds, or it is
    what the store holds at its path. *)
Lemma held_cases (r : bool) acc :
  (forall s, held s r acc = Some Dir) \/
  (forall s, held s r acc = s !! mkPath r (rev acc)).
Proof.
  destruct acc as [|a acc]; [by left|]. unfold held.
  destruct (String.eqb a ".."); [by left | by right].
Qed.

Lemma held_dirs s s' (r : bool) acc :
  (forall a, s !! a = Some Dir -> s' !! a = Some Dir) ->
  held s r acc = Some Dir -> held s' r acc = Some Dir.
Proof.
  intros H. destruct (held_cases r acc) as [Ht|Hk]; [by rewrite !Ht|].
  rewrite !Hk. apply H.
Qed.

(** A walk that reaches its end still does when directories are added. *)
Lemma walk_dirs s s' (r : bool) acc ps n :
  (forall a, s !! a = Some Dir -> s' !! a = Some Dir) ->
  walk s r acc ps = Reached n -> walk s' r acc ps = Reached n.
Proof.
  intros H. revert acc. induction ps as [|c ps IH]; intros acc; simpl; [done|].
  destruct (held s r acc) as [[| |]|] eqn:Hh; try done.
  rewrite (held_dirs _ _ _ _ H Hh). apply IH.
Qed.

(** A walk ends where the steps along the path end. *)
Lemma walk_reached s (r : bool) acc ps n :
  walk s r acc ps = Reached n -> n = foldl (PurePath.step r) acc ps.
Proof.
  revert acc. induction ps as [|c ps IH]; intros acc; simpl.
  - by intros [= ->].
  - destruct (held s r acc) as [[| |]|]; try done. apply IH.
Qed.

(** [mkdir] keeps what is there. *)
Lemma make_dirs_keeps s (no : gmap Path string) (r : bool) acc ps
    (a : Path) x :
  s !! a = Some x -> (make_dirs s no r acc ps).2 !! a = Some x.
Proof.
  revert s acc. induction ps as [|c ps IH]; intros s acc Ha; simpl; [done|].
  destruct (held s r (PurePath.step r acc c)) as [[| |]|] eqn:Hh;
    try done; try (by apply IH).
  destruct (no !! _); [done|].
  apply IH. rewrite lookup_insert_ne; [done|]. intros <-.
  destruct (held_cases r (PurePath.step r acc c)) as [Ht|Hk].
  - by rewrite Ht in Hh.
  - rewrite Hk in Hh. congruence.
Qed.

(** After a [mkdir] that reached its end the walk along the path reaches
    a directory. *)
Lemma make_dirs_walk s (no : gmap Path string) (r : bool) acc ps s' :
  make_dirs s no r acc ps = (DirsMade, s') -> held s r acc = Some Dir ->
  walk s' r acc ps = Reached (foldl (PurePath.step r) acc ps) /\
  held s' r (foldl (PurePath.step r) acc ps) = Some Dir.
Proof.
  revert s acc. induction ps as [|c ps IH]; intros s acc Hm Hacc; simpl in *.
  - by injection Hm as <-.
  - assert (Hkeep : forall a, s !! a = Some Dir -> s' !! a = Some Dir).
    { intros a Ha.
      pose proof (make_dirs_keeps s no r acc (c :: ps) a Dir Ha) as Hk.
      simpl in Hk. by rewrite Hm in Hk. }
    rewrite (held_dirs _ _ _ _ Hkeep Hacc).
    destruct (held s r (PurePath.step r acc c)) as [[| |]|] eqn:Hh; try done.
    + by apply (IH s).
    + destruct (no !! _); [done|]. apply (IH _ _ Hm).
      destruct (held_cases r (PurePath.step r acc c)) as [Ht|Hk]; [done|].
      rewrite Hk. apply lookup_insert_eq.
Qed.

(** After a [mkdir] without error the path holds a directory. *)
Lemma lookup_made_dir m d : mkdir_error m d = None -> made m d !! d = Some Dir.
Proof.
  unfold mkdir_error, made, lookup, FS_lookup. simpl.
  destruct (make_dirs (store m) (denied m) (anchored d) [] (parts d))
    as [[| |kind] s'] eqn:Hm; simpl; [|by destruct (walk _ _ _ _)|done].
  intros _. by destruct (make_dirs_walk _ _ _ _ _ _ Hm eq_refl) as [-> ->].
Qed.

(** A [mkdir], with or without error, keeps what every path holds. *)
Lemma lookup_made_keeps m d q x : m !! q = Some x -> made m d !! q = Some x.
Proof.
  unfold made, lookup, FS_lookup. simpl.
  destruct (walk (store m) (anchored q) [] (parts q)) as [n| |] eqn:Hw;
    try done.
  intros Hh.
  rewrite (walk_dirs (store m) _ _ _ _ n
             (fun a => make_dirs_keeps _ _ _ _ _ a Dir) Hw).
  destruct (held_cases (anchored q) n) as [Ht|Hk].
  - by rewrite Ht in *.
  - rewrite Hk in *. by apply make_dirs_keeps.
Qed.

(** Where a file can be opened for writing there is no directory. *)
Lemma open_place m p :
  open_error m p = None ->
  exists n,
    walk (store m) (anchored p) [] (parts p) = Reached n /\
    PurePath.normal p = mkPath (anchored p) (rev n) /\
    (forall s, held s (anchored p) n = s !! PurePath.normal p) /\
    store m !! PurePath.normal p <> Some Dir.
Proof.
  unfold open_error.
  destruct (walk (store m) (anchored p) [] (parts p)) as [n| |] eqn:Hw;
    try done.
  intros Hh. exists n.
  assert (Hn : PurePath.normal p = mkPath (anchored p) (rev n)).
  { unfold PurePath.normal. by rewrite (walk_reached _ _ _ _ _ Hw). }
  rewrite Hn.
  destruct (held_cases (anchored p) n) as [Ht|Hk].
  - by rewrite Ht in Hh.
  - split_and!; try done. rewrite <- Hk.
    by destruct (held (store m) (anchored p) n) as [[| |]|].
Qed.

(** A written file is at its path. *)
Lemma lookup_write_eq m p x :
  open_error m p = None -> (<[p := x]> m : FS Notebook) !! p = Some x.
Proof.
  intros Ho. destruct (open_place m p Ho) as (n & Hw & Hn & Hk & Hnd).
  unfold lookup, FS_lookup, insert, FS_insert. simpl.
  rewrite (walk_dirs (store m) _ _ _ _ n); [|  |done].
  - rewrite Hk. apply lookup_insert_eq.
  - intros a Ha. rewrite lookup_insert_ne; [done|]. by intros <-.
Qed.

(** Writing a file keeps what the other paths hold, and the
    directories. *)
Lemma lookup_write_ne m p q x y :
  open_error m p = None -> m !! q = Some y ->
  PurePath.normal q <> PurePath.normal p \/ y = Dir ->
  (<[p := x]> m : FS Notebook) !! q = Some y.
Proof.
  intros Ho Hq Hne. destruct (open_place m p Ho) as (n & Hw & Hn & Hk & Hnd).
  revert Hq. unfold lookup, FS_lookup, insert, FS_insert. simpl.
  destruct (walk (store m) (anchored q) [] (parts q)) as [nq| |] eqn:Hwq;
    try done.
  intros Hh.
  rewrite (walk_dirs (store m) _ _ _ _ nq); [|  |done].
  - destruct (held_cases (anchored q) nq) as [Ht|Hkq].
    + by rewrite Ht in *.
    + rewrite Hkq in *.
      assert (Hkey : mkPath (anchored q) (rev nq) = PurePath.normal q).
      { unfold PurePath.normal. by rewrite (walk_reached _ _ _ _ _ Hwq). }
      rewrite Hkey in *. rewrite lookup_insert_ne; [done|].
      intros Heq. destruct Hne as [Hne| ->]; [by destruct Hne|].
      by rewrite Heq in Hnd.
  - intros a Ha. rewrite lookup_insert_ne; [done|]. by intros <-.
Qed.

(** A step with a name is a step in. *)
Lemma normal_snoc (a : bool) ps (c : string) :
  c <> ".." ->
  PurePath.normal (mkPath a (ps ++ [c]))
  = mkPath a (parts (PurePath.normal (mkPath a ps)) ++ [c]).
Proof.
  intros Hc. unfold PurePath.normal. simpl. rewrite foldl_app. simpl.
  unfold PurePath.step at 1.
  destruct (String.eqb c "..") eqn:He; [by apply String.eqb_eq in He|].
  done.
Qed.

(** A saved copy is at its path, in the output directory, which is a
    directory, and next to what the other paths held. *)
Lemma lookup_saved_eq m d p doc :
  save_error m d p = None -> saved m d p doc !! p = Some (NbFile doc).
Proof.
  unfold save_error, saved. destruct (mkdir_error m d); [done|].
  apply lookup_write_eq.
Qed.

Lemma lookup_saved_dir m d p doc :
  save_error m d p = None -> saved m d p doc !! d = Some Dir.
Proof.
  unfold save_error, saved. destruct (mkdir_error m d) eqn:Hmk; [done|].
  intros Ho. apply lookup_write_ne; [done| |by right].
  by apply lookup_made_dir.
Qed.

Lemma lookup_saved_keeps m d p doc q x :
  save_error m d p = None -> PurePath.normal q <> PurePath.normal p ->
  m !! q = Some x -> saved m d p doc !! q = Some x.
Proof.
  unfold save_error, saved. destruct (mkdir_error m d); [done|].
  intros Ho Hne Hq. apply lookup_write_ne; [done| |by left].
  by apply lookup_made_keeps.
Qed.

(** An error of the save is no cell error. *)
Lemma save_error_kind m d p e :
  save_error m d p = Some e -> is_cell_error e = false.
Proof.
  unfold save_error, mkdir_error, open_error.
  destruct (make_dirs _ _ _ _ _).1.
  - destruct (walk _ _ _ _) as [n| |]; try (by intros [= <-]).
    destruct (held _ _ _) as [[| |]|]; try (by intros [= <-]);
      destruct (denied _ !! _); try done; by intros [= <-].
  - destruct (walk _ _ _ _); by intros [= <-].
  - by intros [= <-].
Qed.

End FSFacts.

(* ===================================================================== *)
(** ** The execute-and-save operation *)
(* ===================================================================== *)

Section RunNotebook.

Import Host Runner.

Variable Notebook : Type.
Variable engine : Engine Notebook.
Variable cfg : Config.

Implicit Types (w : World Notebook) (p d : Path).

(** Unfolding of the primitives, down to worlds and results. *)
Ltac unfold_prims :=
  unfold bind, emit, print, Path_exists, Path_cwd, Path_resolve,
    read_notebook, preprocess, mkdir_p, write_notebook, settle, result,
    try_except, sys_exit, ret, raise, bind, emit, set_fs, log, logs in *;
  simpl in *.

Lemma logs_logs (evs evs' : list (Event Notebook)) w :
  logs evs' (logs evs w) = logs (evs ++ evs') w.
Proof. unfold logs; simpl. by rewrite app_assoc. Qed.

Lemma log_logs (ev : Event Notebook) w : log ev w = logs [ev] w.
Proof. reflexivity. Qed.

Lemma exists_false w p :
  fs w !! p = None -> bool_decide (is_Some (fs w !! p)) = false.
Proof. intros ->. apply bool_decide_eq_false. by intros [? ?]. Qed.

Lemma exists_true w p x :
  fs w !! p = Some x -> bool_decide (is_Some (fs w !! p)) = true.
Proof. intros ->. apply bool_decide_eq_true. by eexists. Qed.

(** The call on a path that holds nothing. *)
Lemma run_notebook_missing w p d :
  fs w !! p = None ->
  run_notebook Notebook engine cfg p d w
  = (Raise (Exc (FileNotFoundError p)), logs [EvCall p] w).
Proof.
  intros H. unfold run_notebook. unfold_prims.
  by rewrite (exists_false _ _ H).
Qed.

(** The call on a path that holds something [nbformat.read] cannot take. *)
Lemma run_notebook_unreadable w p d x :
  fs w !! p = Some x -> (forall nb, x <> NbFile nb) ->
  exists kind,
    run_notebook Notebook engine cfg p d w
    = (Raise (Exc (OtherError kind)),
       logs [EvCall p; EvPrint (MsgStart p); EvRead p] w).
Proof.
  intros H Hx. unfold run_notebook. unfold_prims.
  rewrite (exists_true _ _ _ H); simpl. rewrite H.
  destruct x as [nb| |]; [by destruct (Hx nb) | |]; eexists;
    rewrite <- !app_assoc; reflexivity.
Qed.

(** The call on a notebook the engine executes to its end, the copy being
    saved. *)
Lemma run_notebook_returned w p d nb doc m :
  fs w !! p = Some (NbFile nb) ->
  engine (ep_of cfg) nb (PurePath.str (PurePath.parent p)) (fs w)
  = (Returned doc, m) ->
  save_error m d (out_path_of p d) = None ->
  run_notebook Notebook engine cfg p d w
  = (Done (out_path_of p d),
     mkWorld (saved m d (out_path_of p d) doc) (getcwd w)
       (trace w ++ [EvCall p; EvPrint (MsgStart p); EvRead p;
                    EvEngine (ep_of cfg) (PurePath.str (PurePath.parent p));
                    EvMkdir d; EvWrite (out_path_of p d) doc;
                    EvPrint (MsgDone (out_path_of p d))])).
Proof.
  intros H He Hs. unfold save_error in Hs.
  destruct (mkdir_error m d) eqn:Hmk; [done|].
  unfold run_notebook, saved, ep_of in *. unfold_prims.
  rewrite (exists_true _ _ _ H); simpl. rewrite H; simpl. rewrite He; simpl.
  rewrite Hmk; simpl. rewrite Hs; simpl.
  rewrite <- !app_assoc. reflexivity.
Qed.

(** The call on a notebook the engine executes to its end, the copy not
    being saved. *)
Lemma run_notebook_returned_unsaved w p d nb doc m e' :
  fs w !! p = Some (NbFile nb) ->
  engine (ep_of cfg) nb (PurePath.str (PurePath.parent p)) (fs w)
  = (Returned doc, m) ->
  save_error m d (out_path_of p d) = Some e' ->
  run_notebook Notebook engine cfg p d w
  = (Raise (Exc e'),
     mkWorld (made m d) (getcwd w)
       (trace w ++ [EvCall p; EvPrint (MsgStart p); EvRead p;
                    EvEngine (ep_of cfg) (PurePath.str (PurePath.parent p));
                    EvMkdir d])).
Proof.
  intros H He Hs. unfold save_error in Hs.
  unfold run_notebook, ep_of in *. unfold_prims.
  rewrite (exists_true _ _ _ H); simpl. rewrite H; simpl. rewrite He; simpl.
  destruct (mkdir_error m d) eqn:Hmk; simpl.
  - injection Hs as ->. rewrite <- !app_assoc. reflexivity.
  - rewrite Hs; simpl. rewrite <- !app_assoc. reflexivity.
Qed.

(** The call on a notebook in which a cell fails, the copy being saved. *)
Lemma run_notebook_cell_error w p d nb msg doc m :
  fs w !! p = Some (NbFile nb) ->
  engine (ep_of cfg) nb (PurePath.str (PurePath.parent p)) (fs w)
  = (Raised (CellExecutionError msg) doc, m) ->
  save_error m d (failed_path_of p d) = None ->
  run_notebook Notebook engine cfg p d w
  = (Raise (Exc (CellExecutionError msg)),
     mkWorld (saved m d (failed_path_of p d) doc) (getcwd w)
       (trace w ++ [EvCall p; EvPrint (MsgStart p); EvRead p;
                    EvEngine (ep_of cfg) (PurePath.str (PurePath.parent p));
                    EvMkdir d; EvWrite (failed_path_of p d) doc;
                    EvPrint (MsgFailedSaved p (failed_path_of p d))])).
Proof.
  intros H He Hs. unfold save_error in Hs.
  destruct (mkdir_error m d) eqn:Hmk; [done|].
  unfold run_notebook, saved, ep_of in *. unfold_prims.
  rewrite (exists_true _ _ _ H); simpl. rewrite H; simpl. rewrite He; simpl.
  rewrite Hmk; simpl. rewrite Hs; simpl.
  rewrite <- !app_assoc. reflexivity.
Qed.

(** The call on a notebook in which a cell fails, the copy not being
    saved: the error of the save takes the place of the cell error. *)
Lemma run_notebook_cell_error_unsaved w p d nb msg doc m e' :
  fs w !! p = Some (NbFile nb) ->
  engine (ep_of cfg) nb (PurePath.str (PurePath.parent p)) (fs w)
  = (Raised (CellExecutionError msg) doc, m) ->
  save_error m d (failed_path_of p d) = Some e' ->
  run_notebook Notebook engine cfg p d w
  = (Raise (Exc e'),
     mkWorld (made m d) (getcwd w)
       (trace w ++ [EvCall p; EvPrint (MsgStart p); EvRead p;
                    EvEngine (ep_of cfg) (PurePath.str (PurePath.parent p));
                    EvMkdir d])).
Proof.
  intros H He Hs. unfold save_error in Hs.
  unfold run_notebook, ep_of in *. unfold_prims.
  rewrite (exists_true _ _ _ H); simpl. rewrite H; simpl. rewrite He; simpl.
  destruct (mkdir_error m d) eqn:Hmk; simpl.
  - injection Hs as ->. rewrite <- !app_assoc. reflexivity.
  - rewrite Hs; simpl. rewrite <- !app_assoc. reflexivity.
Qed.

(** The call on a notebook on which the engine fails otherwise. *)
Lemma run_notebook_engine_error w p d nb e doc m :
  fs w !! p = Some (NbFile nb) ->
  engine (ep_of cfg) nb (PurePath.str (PurePath.parent p)) (fs w)
  = (Raised e doc, m) ->
  is_cell_error e = false ->
  run_notebook Notebook engine cfg p d w
  = (Raise (Exc e),
     mkWorld m (getcwd w)
       (trace w ++ [EvCall p; EvPrint (MsgStart p); EvRead p;
                    EvEngine (ep_of cfg) (PurePath.str (PurePath.parent p))])).
Proof.
  intros H He Hk. unfold run_notebook, ep_of in *. unfold_prims.
  rewrite (exists_true _ _ _ H); simpl. rewrite H; simpl. rewrite He; simpl.
  destruct e; [|discriminate|]; rewrite <- !app_assoc; reflexivity.
Qed.

End RunNotebook.

(** Case analysis on a call of [run_notebook]: what the path holds, when
    it holds a notebook, how the engine ends, and when there is a copy to
    save, whether it is saved. *)
Ltac run_notebook_cases engine cfg w p d :=
  let Hp := fresh "Hp" in
  let He := fresh "He" in
  let Hk := fresh "Hk" in
  let Hs := fresh "Hs" in
  let nb := fresh "nb" in
  let doc := fresh "doc" in
  let e := fresh "e" in
  let e' := fresh "e'" in
  let m := fresh "m" in
  let kind := fresh "kind" in
  let Hrun := fresh "Hrun" in
  destruct (Host.fs w !! p) as [[nb| |]|] eqn:Hp;
  [ destruct (engine (Runner.ep_of cfg) nb
                (PurePath.str (PurePath.parent p)) (Host.fs w))
      as [[doc|e doc] m] eqn:He;
    [ destruct (Runner.save_error m d (Runner.out_path_of p d))
        as [e'|] eqn:Hs;
      [ pose proof (run_notebook_returned_unsaved _ engine cfg w p d nb doc m
                      e' Hp He Hs) as Hrun
      | pose proof (run_notebook_returned _ engine cfg w p d nb doc m
                      Hp He Hs) as Hrun ]
    | destruct (Runner.is_cell_error e) eqn:Hk;
      [ destruct e as [?|msg|?]; try discriminate Hk;
        destruct (Runner.save_error m d (Runner.failed_path_of p d))
          as [e'|] eqn:Hs;
        [ pose proof (run_notebook_cell_error_unsaved _ engine cfg w p d nb
                        msg doc m e' Hp He Hs) as Hrun
        | pose proof (run_notebook_cell_error _ engine cfg w p d nb msg doc m
                        Hp He Hs) as Hrun ]
      | pose proof (run_notebook_engine_error _ engine cfg w p d nb e doc m
                      Hp He Hk) as Hrun ] ]
  | destruct (run_notebook_unreadable _ engine cfg w p d _ Hp)
      as [kind Hrun]; [done|]
  | destruct (run_notebook_unreadable _ engine cfg w p d _ Hp)
      as [kind Hrun]; [done|]
  | pose proof (run_notebook_missing _ engine cfg w p d Hp) as Hrun ].

Section RunNotebookSpec.

Import Host Runner.

Variable Notebook : Type.
Variable engine : Engine Notebook.
Variable cfg : Config.

Implicit Types (w : World Notebook) (p d : Path).

(** What every call leaves behind: the trace grows by the entry mark and
    events that are neither an entry nor a pool, the working directory
    stays, the call never exits the process, and a returned path is the
    [_executed] file, which was written. *)
Lemma run_notebook_frame w p d :
  exists evs,
    trace (run_notebook Notebook engine cfg p d w).2 = trace w ++ EvCall p :: evs /\
    getcwd (run_notebook Notebook engine cfg p d w).2 = getcwd w /\
    calls evs = [] /\ pools evs = [] /\
    (forall c, (run_notebook Notebook engine cfg p d w).1 <> Raise (SystemExit c)) /\
    (forall q, (run_notebook Notebook engine cfg p d w).1 = Done q ->
               q = out_path_of p d /\ q ∈ writes evs).
Proof.
  run_notebook_cases engine cfg w p d; rewrite Hrun; simpl;
    eexists; (split; [reflexivity|]); simpl; split_and!; try done.
  intros q [= <-]. split; [done|]. set_solver.
Qed.

(** C5.  On a path that holds nothing the operation raises the not-found
    error at once: the engine is not invoked, nothing is read, no directory
    is made and no file is written, and the files are as they were. *)
Theorem missing_notebook_not_found w p d :
  fs w !! p = None ->
  exists evs,
    run_notebook Notebook engine cfg p d w
    = (Raise (Exc (FileNotFoundError p)), logs evs w) /\
    engine_runs evs = 0%nat /\ reads evs = [] /\
    mkdirs evs = [] /\ writes evs = [] /\
    fs (logs evs w) = fs w.
Proof.
  intros H. exists [EvCall p].
  rewrite (run_notebook_missing _ engine cfg w p d H). done.
Qed.

(** C2.  A call writes at most one file, and the two files it can write
    are never the same.  When the engine returned and the copy can be
    saved, the call writes the [_executed] copy and returns its path; when
    the engine raised a cell-execution error and the copy can be saved, it
    writes the [_FAILED] copy and raises that same error, the copy being in
    place when it does.  When the copy cannot be saved, because the output
    directory cannot be made or the file cannot be opened, the call raises
    the error of the save, which is no cell error, and writes nothing.  On
    any other error, of the engine or before it, the error is raised as it
    is and nothing is written. *)
Theorem one_output_file w p d :
  exists evs,
    trace (run_notebook Notebook engine cfg p d w).2 = trace w ++ evs /\
    (length (writes evs) <= 1)%nat /\
    out_path_of p d <> failed_path_of p d /\
    (out_path_of p d ∈ writes evs <->
       exists doc, engine_answer engine cfg p w = Some (Returned doc) /\
                   save_error (engine_leaves engine cfg p w) d (out_path_of p d)
                   = None) /\
    (failed_path_of p d ∈ writes evs <->
       exists msg doc, engine_answer engine cfg p w
                       = Some (Raised (CellExecutionError msg) doc) /\
                       save_error (engine_leaves engine cfg p w) d
                                  (failed_path_of p d) = None) /\
    match engine_answer engine cfg p w with
    | Some (Returned doc) =>
        match save_error (engine_leaves engine cfg p w) d (out_path_of p d) with
        | None =>
            (run_notebook Notebook engine cfg p d w).1 = Done (out_path_of p d) /\
            writes evs = [out_path_of p d] /\
            fs (run_notebook Notebook engine cfg p d w).2 !! out_path_of p d
            = Some (NbFile doc)
        | Some e' =>
            (run_notebook Notebook engine cfg p d w).1 = Raise (Exc e') /\
            is_cell_error e' = false /\ writes evs = []
        end
    | Some (Raised e doc) =>
        if is_cell_error e
        then match save_error (engine_leaves engine cfg p w) d
                              (failed_path_of p d) with
             | None =>
                 (run_notebook Notebook engine cfg p d w).1 = Raise (Exc e) /\
                 writes evs = [failed_path_of p d] /\
                 fs (run_notebook Notebook engine cfg p d w).2
                   !! failed_path_of p d
                 = Some (NbFile doc)
             | Some e' =>
                 (run_notebook Notebook engine cfg p d w).1 = Raise (Exc e') /\
                 is_cell_error e' = false /\ writes evs = []
             end
        else (run_notebook Notebook engine cfg p d w).1 = Raise (Exc e) /\
             writes evs = []
    | None =>
        writes evs = [] /\
        exists e, (run_notebook Notebook engine cfg p d w).1 = Raise (Exc e) /\
                  is_cell_error e = false
    end.
Proof.
  pose proof (out_failed_apart p d) as Hapart.
  assert (Hsaved : forall (m : FS Notebook) q doc,
            save_error m d q = None ->
            saved m d q doc !! q = Some (NbFile doc)).
  { intros m q doc Hs. unfold save_error in Hs. unfold saved.
    destruct (mkdir_error m d); [done|]. by apply lookup_write_eq. }
  unfold engine_answer, engine_leaves.
  run_notebook_cases engine cfg w p d; rewrite Hrun; simpl;
    rewrite ?He; simpl; rewrite ?Hs, ?Hk;
    eexists; (split; [reflexivity|]); simpl;
    (split; [lia|]); (split; [done|]).
  - pose proof (save_error_kind _ _ _ _ _ Hs) as Hkind.
    split_and!; try done.
    + split; [by intros ?%elem_of_nil | by intros (? & ? & ?)].
    + split; [by intros ?%elem_of_nil | by intros (? & ? & ? & ?)].
  - split_and!; try done; [| |by apply Hsaved].
    + split; [by eexists | intros _; set_solver].
    + split; [|by intros (? & ? & ? & ?)].
      intros ?%list_elem_of_singleton. by destruct Hapart.
  - pose proof (save_error_kind _ _ _ _ _ Hs) as Hkind.
    split_and!; try done.
    + split; [by intros ?%elem_of_nil | by intros (? & ? & ?)].
    + split; [by intros ?%elem_of_nil|].
      intros (? & ? & _ & ?). congruence.
  - split_and!; try done; [| |by apply Hsaved].
    + split; [|by intros (? & ? & ?)].
      intros ?%list_elem_of_singleton. by destruct Hapart.
    + split; [by do 2 eexists | intros _; set_solver].
  - split_and!; try done.
    + split; [by intros ?%elem_of_nil | by intros (? & ? & ?)].
    + split; [by intros ?%elem_of_nil|].
      intros (? & ? & [= ->] & _). done.
  - split_and!; try done;
      try (split; [by intros ?%elem_of_nil | by intros (? & ? & ?)]);
      try (split; [by intros ?%elem_of_nil | by intros (? & ? & ? & ?)]).
    by eexists.
  - split_and!; try done;
      try (split; [by intros ?%elem_of_nil | by intros (? & ? & ?)]);
      try (split; [by intros ?%elem_of_nil | by intros (? & ? & ? & ?)]).
    by eexists.
  - split_and!; try done;
      try (split; [by intros ?%elem_of_nil | by intros (? & ? & ?)]);
      try (split; [by intros ?%elem_of_nil | by intros (? & ? & ? & ?)]).
    by eexists.
Qed.

End RunNotebookSpec.

(* ===================================================================== *)
(** ** The two phases *)
(* ===================================================================== *)

Section Phases.

Import Host Runner Obs.

Variable Notebook : Type.
Variable engine : Engine Notebook.
Variable cfg : Config.

Implicit Types (w : World Notebook) (p d : Path) (cwd nb : string).

Lemma joinpath_anchored (p q : Path) :
  anchored (PurePath.joinpath p q) = anchored q || anchored p.
Proof. unfold PurePath.joinpath. by destruct q as [[] ?]. Qed.

Lemma for_each_app {A} (l1 l2 : list A) (body : A -> M Notebook unit) w :
  for_each (l1 ++ l2) body w
  = match for_each l1 body w with
    | (Done _, w') => for_each l2 body w'
    | (Raise e, w') => (Raise e, w')
    end.
Proof.
  revert w. induction l1 as [|a l1 IH]; intros w; simpl; [reflexivity|].
  unfold bind. destruct (body a w) as [[[]|e] w']; [apply IH | reflexivity].
Qed.

Lemma resolve_anchored (c p : Path) :
  anchored (PurePath.resolve c p) = anchored (PurePath.joinpath c p).
Proof. reflexivity. Qed.

Lemma located_absolute cwd nb :
  PurePath.is_absolute (PurePath.of_str cwd) = true ->
  PurePath.is_absolute (located cwd nb) = true.
Proof.
  intros Hcwd. unfold located.
  destruct (PurePath.is_absolute (PurePath.of_str nb)) eqn:Hnb;
    simpl negb; cbv iota; [exact Hnb|].
  unfold PurePath.is_absolute in *.
  rewrite resolve_anchored. unfold PurePath.div.
  rewrite !joinpath_anchored, Hcwd. by rewrite !orb_true_r.
Qed.

Lemma locate_located w nb :
  locate Notebook (PurePath.of_str (getcwd w)) nb w
  = (Done (located (getcwd w) nb), w).
Proof. unfold locate, located. by destruct (negb _). Qed.

(** One turn of the sequential loop. *)
Lemma seq_phase_cons cwd d nb l w :
  getcwd w = cwd ->
  seq_phase Notebook engine cfg (PurePath.of_str cwd) d (nb :: l) w
  = match run_notebook Notebook engine cfg (located cwd nb) d w with
    | (Done _, w') =>
        seq_phase Notebook engine cfg (PurePath.of_str cwd) d l w'
    | (Raise (Exc e), w') =>
        (Raise (SystemExit 1), logs [EvPrint (MsgHalted (located cwd nb) e)] w')
    | (Raise (SystemExit c), w') => (Raise (SystemExit c), w')
    end.
Proof.
  intros <-. unfold seq_phase; simpl. unfold bind at 1. unfold bind at 1.
  rewrite locate_located. unfold try_except, bind at 1.
  destruct (run_notebook _ _ _ _ _ _) as [[q|[e|c]] w']; reflexivity.
Qed.

(** The sequential loop over a list that continues another. *)
Lemma seq_phase_app base d l1 l2 w :
  seq_phase Notebook engine cfg base d (l1 ++ l2) w
  = match seq_phase Notebook engine cfg base d l1 w with
    | (Done _, w') => seq_phase Notebook engine cfg base d l2 w'
    | (Raise e, w') => (Raise e, w')
    end.
Proof. unfold seq_phase. apply for_each_app. Qed.

(** What the sequential loop leaves behind: it entered [run_notebook] with
    the located paths of the first [k] entries, in order, opened no pool,
    and either ran through all entries or exited with status 1. *)
Lemma seq_phase_spec cwd d l w :
  getcwd w = cwd ->
  exists evs k,
    let rw := seq_phase Notebook engine cfg (PurePath.of_str cwd) d l w in
    trace rw.2 = trace w ++ evs /\
    getcwd rw.2 = cwd /\
    pools evs = [] /\
    calls evs = map (located cwd) (take k l) /\
    (rw.1 = Done tt /\ k = length l \/
     rw.1 = Raise (SystemExit 1) /\ (0 < k <= length l)%nat).
Proof.
  revert w. induction l as [|nb l IH]; intros w Hcwd.
  - exists [], 0%nat. simpl. rewrite app_nil_r. by split_and!; auto.
  - rewrite (seq_phase_cons cwd) by done.
    destruct (run_notebook_frame _ engine cfg w (located cwd nb) d)
      as (evs & Ht & Hc & Hcalls & Hpools & Hexit & _).
    destruct (run_notebook _ _ _ _ _ _) as [[q|[e|c]] w'] eqn:Hrun;
      simpl in Ht, Hc, Hexit.
    + rewrite Hcwd in Hc.
      destruct (IH w' Hc) as (evs' & k & IHt & IHc & IHp & IHcalls & IHr).
      exists (EvCall (located cwd nb) :: evs ++ evs'), (S k).
      cbv zeta in *. rewrite IHt, Ht. rewrite <- !app_assoc. simpl.
      split_and!; try done.
      * unfold pools in *. rewrite omap_app. by rewrite Hpools, IHp.
      * unfold calls in *. rewrite omap_app. by rewrite Hcalls, IHcalls.
      * destruct IHr as [[? ->]|[? ?]]; [left|right]; split; try done; lia.
    + exists (EvCall (located cwd nb) :: evs
              ++ [EvPrint (MsgHalted (located cwd nb) e)]), 1%nat.
      simpl. rewrite Ht, Hc. rewrite <- !app_assoc. simpl.
      split_and!; try done.
      * unfold pools in *. rewrite omap_app; simpl. by rewrite Hpools.
      * unfold calls in *. rewrite omap_app; simpl.
        by rewrite Hcalls.
      * right. split; [done|lia].
    + by destruct (Hexit c).
Qed.

(** *** The pool *)

Lemma pluck_lt {A} (i : nat) (l : list A) :
  (i < length l)%nat -> exists x r, pluck i l = Some (x, r).
Proof.
  revert i. induction l as [|a l IH]; intros i Hi; simpl in Hi; [lia|].
  destruct i as [|i]; [by exists a, l|].
  destruct (IH i) as (x & r & Hp); [lia|].
  exists x, (a :: r). cbn. by rewrite Hp.
Qed.

Lemma pluck_perm {A} (i : nat) (l r : list A) (x : A) :
  pluck i l = Some (x, r) -> Permutation l (x :: r).
Proof.
  revert i r. induction l as [|a l IH]; intros i r H; cbn in H; [done|].
  destruct i as [|i]; [by injection H as -> ->|].
  destruct (pluck i l) as [[y r']|] eqn:Hp; [|done].
  injection H as -> <-. rewrite (IH _ _ Hp). apply perm_swap.
Qed.

(** Every submitted task completes, once: the completion order is a
    rearrangement of the submitted tasks, whatever the schedule. *)
Lemma completion_order_perm {A} (sched : list nat) (l : list A) :
  Permutation (completion_order (length l) sched l) l.
Proof.
  remember (length l) as n eqn:Hn. revert sched l Hn.
  induction n as [|n IH]; intros sched l Hn; simpl.
  - destruct l; [done|discriminate].
  - destruct (pluck_lt (hd 0%nat sched mod length l) l) as (x & r & Hp).
    { apply Nat.mod_upper_bound. lia. }
    rewrite Hp. pose proof (pluck_perm _ _ _ _ Hp) as Hperm.
    rewrite Hperm. constructor. apply IH.
    apply Permutation_length in Hperm. simpl in Hperm. lia.
Qed.

(** The tasks the submission loop hands to the pool. *)
Lemma submit_all_located cwd d l w :
  getcwd w = cwd ->
  submit_all Notebook engine cfg (PurePath.of_str cwd) d l w
  = (Done (map (fun nb => (located cwd nb,
                           run_notebook Notebook engine cfg (located cwd nb) d))
               l), w).
Proof.
  intros <-. induction l as [|nb l IH]; simpl; [reflexivity|].
  unfold bind at 1. rewrite locate_located.
  unfold bind at 1. by rewrite IH.
Qed.

(** The pool settles every task it is given, in the order given. *)
Lemma run_pool_settled d ps w :
  exists completed w2 evs,
    run_pool Notebook
      (map (fun p => (p, run_notebook Notebook engine cfg p d)) ps) w
    = (Done completed, w2) /\
    settled engine cfg d w ps completed w2 /\
    trace w2 = trace w ++ evs /\ getcwd w2 = getcwd w /\
    pools evs = [] /\ calls evs = ps /\ completed.*1 = ps /\
    Forall (fun pr => (forall c, pr.2 <> Raise (SystemExit c)) /\
                      forall q, pr.2 = Done q ->
                                q = out_path_of pr.1 d /\ q ∈ writes evs)
           completed.
Proof.
  revert w. induction ps as [|p ps IH]; intros w; simpl.
  - exists [], w, []. rewrite app_nil_r. split_and!; try done. constructor.
  - destruct (run_notebook_frame _ engine cfg w p d)
      as (evs & Ht & Hc & Hcalls & Hpools & Hexit & Hdone).
    unfold bind at 1. unfold settle.
    destruct (run_notebook _ _ _ _ _ _) as [r w'] eqn:Hrun; simpl in *.
    destruct (IH w') as (completed & w2 & evs' & Hpool & Hset & IHt & IHc
                         & IHp & IHcalls & IHfst & IHall).
    unfold bind at 1. rewrite Hpool. unfold ret.
    exists ((p, r) :: completed), w2, (EvCall p :: evs ++ evs').
    split_and!; try done.
    + by econstructor.
    + rewrite IHt, Ht. by rewrite <- !app_assoc.
    + congruence.
    + unfold pools in *. simpl. rewrite omap_app. by rewrite Hpools, IHp.
    + unfold calls in *. simpl. rewrite omap_app. by rewrite Hcalls, IHcalls.
    + rewrite fmap_cons. simpl. f_equal. exact IHfst.
    + constructor; simpl.
      * split; [done|]. intros q Hq. destruct (Hdone q Hq) as [-> Hin].
        split; [done|]. unfold writes in *. simpl. rewrite omap_app.
        apply elem_of_app. by left.
      * eapply Forall_impl; [exact IHall|]. intros [p' r'] [Hx Hw]; simpl in *.
        split; [done|]. intros q Hq. destruct (Hw q Hq) as [-> Hin].
        split; [done|]. unfold writes in *. simpl. rewrite omap_app.
        apply elem_of_app. by right.
Qed.

Lemma calls_prints (ms : list Msg) :
  calls (Notebook:=Notebook) (map EvPrint ms) = [].
Proof. by induction ms. Qed.

Lemma writes_prints (ms : list Msg) :
  writes (Notebook:=Notebook) (map EvPrint ms) = [].
Proof. by induction ms. Qed.

Lemma pools_prints (ms : list Msg) :
  pools (Notebook:=Notebook) (map EvPrint ms) = [].
Proof. by induction ms. Qed.

(** The loop over the completed futures looks at every future: it prints
    one line for each future that holds an exception, in their order, and
    nothing else, raises nothing, and ends with [had_error] set exactly
    when it was set before or some future holds an exception. *)
Lemma drain_lines (completed : list (Path * Res Path)) (b : bool) w :
  Forall (fun pr => forall c, pr.2 <> Raise (SystemExit c)) completed ->
  drain Notebook completed b w
  = (Done (b || existsb (fun pr => is_raise pr.2) completed),
     logs (map EvPrint (error_lines completed)) w).
Proof.
  intros Hall. revert b w.
  induction Hall as [|[p r] rest Hx Hrest IH]; intros b w; simpl.
  - unfold logs, ret. simpl. rewrite app_nil_r, orb_false_r. by destruct w.
  - unfold bind, try_except, result, ret, print, emit.
    destruct r as [q|[e|c]]; simpl in *.
    + by rewrite IH.
    + rewrite IH, log_logs, logs_logs, orb_true_r. done.
    + by destruct (Hx c).
Qed.

(** What the parallel phase does with a non-empty subset: it opens one
    pool of [min(2, len(par_part))] workers, settles every located task
    once, in some order [ps], and exits with status 1 exactly when some
    future holds an exception and [ALLOW_ERRORS] is off. *)
Lemma par_phase_spec cwd d sched (par : list string) w1 :
  getcwd w1 = cwd -> par <> [] ->
  exists ps completed w2 evs evs',
    Permutation ps (map (located cwd) par) /\
    settled engine cfg d
      (logs [EvPrint MsgParallelStart; EvPool (Z.min 2 (Py.len par))] w1)
      ps completed w2 /\
    trace w2
    = trace w1 ++ [EvPrint MsgParallelStart; EvPool (Z.min 2 (Py.len par))]
              ++ evs /\
    getcwd w2 = cwd /\
    calls evs = ps /\ pools evs = [] /\ completed.*1 = ps /\
    Forall (fun pr => forall q, pr.2 = Done q ->
                                q = out_path_of pr.1 d /\ q ∈ writes evs)
           completed /\
    par_phase Notebook engine cfg sched (PurePath.of_str cwd) d par w1
    = ((if existsb (fun pr => is_raise pr.2) completed
           && negb (ALLOW_ERRORS cfg)
        then Raise (SystemExit 1) else Done tt),
       logs evs' w2) /\
    evs' = map EvPrint (error_lines completed) /\
    calls evs' = [] /\ writes evs' = [] /\ pools evs' = [].
Proof.
  intros Hcwd Hne. unfold par_phase.
  destruct par as [|nb0 par0] eqn:Hpar; [done|]. rewrite <- Hpar in *.
  replace (Py.truthy par) with true by (by rewrite Hpar).
  set (h := fun p => (p, run_notebook Notebook engine cfg p d)).
  set (futures := map (fun nb => (located cwd nb,
                   run_notebook Notebook engine cfg (located cwd nb) d)) par).
  assert (Hfut : futures = map h (map (located cwd) par)).
  { unfold futures. by rewrite map_map. }
  pose proof (completion_order_perm sched futures) as Hperm.
  rewrite Hfut in Hperm at 3.
  apply Permutation_map_inv in Hperm as (ps & Horder & Hps).
  destruct (run_pool_settled d ps
              (logs [EvPrint MsgParallelStart; EvPool (Z.min 2 (Py.len par))] w1))
    as (completed & w2 & evs & Hpool & Hset & Ht & Hc & Hp & Hcalls & Hfst & Hall).
  assert (Hdrain : drain Notebook completed false w2
            = (Done (false || existsb (fun pr => is_raise pr.2) completed),
               logs (map EvPrint (error_lines completed)) w2)).
  { apply drain_lines. eapply Forall_impl; [exact Hall|]. by intros ? [? _]. }
  exists ps, completed, w2, evs, (map EvPrint (error_lines completed)).
  split_and!; try done;
    try apply calls_prints; try apply writes_prints; try apply pools_prints.
  - rewrite Ht. simpl. by rewrite <- app_assoc.
  - by rewrite Hc.
  - eapply Forall_impl; [exact Hall|]. by intros ? [_ ?].
  - unfold bind at 1. unfold print, emit at 1. unfold bind at 1.
    unfold emit at 1. unfold bind at 1.
    rewrite (submit_all_located cwd) by done. fold futures.
    unfold bind at 1. rewrite Horder.
    change (log (EvPool (Z.min 2 (Py.len par))) (log (EvPrint MsgParallelStart) w1))
      with (logs [EvPool (Z.min 2 (Py.len par))]
                 (logs [EvPrint MsgParallelStart] w1)).
    rewrite logs_logs. simpl app. subst h. cbv beta. rewrite Hpool.
    unfold bind at 1. rewrite Hdrain. rewrite orb_false_l. cbv beta iota.
    destruct (existsb _ completed && negb (ALLOW_ERRORS cfg)); reflexivity.
Qed.

(** [main] on a non-empty list, phase by phase. *)
Lemma main_phases sched w :
  NOTEBOOKS cfg <> [] ->
  let base := PurePath.of_str (getcwd w) in
  let out := PurePath.div base (OUT_DIRNAME cfg) in
  main Notebook engine cfg sched w
  = match seq_phase Notebook engine cfg base out
            (Split.seq_part (NOTEBOOKS cfg)) w with
    | (Done _, w1) =>
        match par_phase Notebook engine cfg sched base out
                (Split.par_part (NOTEBOOKS cfg)) w1 with
        | (Done _, w2) => (Done tt, logs [EvPrint (MsgFinished out)] w2)
        | (Raise e, w2) => (Raise e, w2)
        end
    | (Raise e, w1) => (Raise e, w1)
    end.
Proof.
  intros Hne base out. unfold main.
  assert (Htruthy : Py.truthy (NOTEBOOKS cfg) = true)
    by (by destruct (NOTEBOOKS cfg)).
  rewrite Htruthy. change (negb true) with false. cbv iota.
  unfold bind at 1. unfold Path_cwd. cbv beta iota zeta.
  fold base. fold out. unfold bind at 1.
  destruct (seq_phase _ _ _ _ _ _ w) as [[[]|e] w1]; [|reflexivity].
  unfold bind at 1.
  destruct (par_phase _ _ _ _ _ _ _ w1) as [[[]|e] w2]; reflexivity.
Qed.

End Phases.

(* ===================================================================== *)
(** ** The process *)
(* ===================================================================== *)

Section Process.

Import Host Runner Obs.

Variable Notebook : Type.
Variable engine : Engine Notebook.
Variable cfg : Config.

Implicit Types (w : World Notebook) (p d : Path) (cwd nb : string).

Lemma run_main sched w :
  run Notebook engine cfg sched w
  = (exit_status (main Notebook engine cfg sched w).1,
     (main Notebook engine cfg sched w).2).
Proof. unfold run. by destruct (main _ _ _ _ _). Qed.

Lemma calls_app (t1 t2 : list (Event Notebook)) :
  calls (t1 ++ t2) = calls t1 ++ calls t2.
Proof. apply omap_app. Qed.

Lemma pools_app (t1 t2 : list (Event Notebook)) :
  pools (t1 ++ t2) = pools t1 ++ pools t2.
Proof. apply omap_app. Qed.

Lemma writes_app (t1 t2 : list (Event Notebook)) :
  writes (t1 ++ t2) = writes t1 ++ writes t2.
Proof. apply omap_app. Qed.

(** C6.  With an empty list the process prints one line and exits with
    status 2: [run_notebook] is never entered, nothing is read, the engine
    is not invoked, no directory is made, no file is written and no pool is
    opened; the files are as they were. *)
Theorem empty_list_exits_2 sched w :
  NOTEBOOKS cfg = [] ->
  exists evs,
    run Notebook engine cfg sched w = (2, logs evs w) /\
    calls evs = [] /\ reads evs = [] /\ engine_runs evs = 0%nat /\
    mkdirs evs = [] /\ writes evs = [] /\ pools evs = [] /\
    fs (logs evs w) = fs w.
Proof.
  intros H. exists [EvPrint MsgEmptyList].
  unfold run, main. rewrite H. done.
Qed.

(** C3.  When a notebook of the sequential subset fails, the ones before
    it having succeeded, the process exits at once with status 1:
    [run_notebook] was entered for the notebooks up to the failing one and
    for no other, and no pool was opened. *)
Theorem sequential_failure_halts sched w pre nb post w1 e w2 :
  let cwd := getcwd w in
  let base := PurePath.of_str cwd in
  let out := PurePath.div base (OUT_DIRNAME cfg) in
  Split.seq_part (NOTEBOOKS cfg) = pre ++ nb :: post ->
  seq_phase Notebook engine cfg base out pre w = (Done tt, w1) ->
  run_notebook Notebook engine cfg (located cwd nb) out w1 = (Raise e, w2) ->
  exists e' evs,
    e = Exc e' /\
    run Notebook engine cfg sched w
    = (1, logs [EvPrint (MsgHalted (located cwd nb) e')] w2) /\
    trace (run Notebook engine cfg sched w).2 = trace w ++ evs /\
    calls evs = map (located cwd) (pre ++ [nb]) /\
    pools evs = [].
Proof.
  intros cwd base out Hsplit Hpre Hrun.
  assert (Hne : NOTEBOOKS cfg <> []).
  { intros Hnil. rewrite Hnil in Hsplit. by destruct pre. }
  destruct (seq_phase_spec _ engine cfg cwd out pre w eq_refl)
    as (evs1 & k & Ht1 & Hc1 & Hp1 & Hcalls1 & Hr1).
  fold base in Ht1, Hc1, Hr1. rewrite Hpre in Ht1, Hc1, Hr1. simpl in *.
  destruct Hr1 as [[_ ->]|[? _]]; [|done].
  rewrite take_ge in Hcalls1 by lia.
  destruct (run_notebook_frame _ engine cfg w1 (located cwd nb) out)
    as (evs2 & Ht2 & Hc2 & Hcalls2 & Hp2 & Hexit & _).
  rewrite Hrun in Ht2, Hc2, Hexit. simpl in *.
  destruct e as [e'|c]; [|by destruct (Hexit c)].
  assert (Hmain : main Notebook engine cfg sched w
    = (Raise (SystemExit 1), logs [EvPrint (MsgHalted (located cwd nb) e')] w2)).
  { rewrite main_phases by done. fold cwd base out.
    rewrite Hsplit, seq_phase_app, Hpre.
    unfold base. rewrite (seq_phase_cons _ engine cfg cwd) by done.
    by rewrite Hrun. }
  exists e', (evs1 ++ EvCall (located cwd nb) :: evs2
              ++ [EvPrint (MsgHalted (located cwd nb) e')]).
  rewrite run_main, Hmain. simpl.
  split_and!; try done.
  - rewrite Ht2, Ht1. by rewrite <- !app_assoc.
  - rewrite calls_app. simpl. rewrite calls_app, Hcalls1, Hcalls2. simpl.
    by rewrite map_app.
  - rewrite pools_app. simpl. rewrite pools_app, Hp1, Hp2. done.
Qed.

(** The parallel phase as [main] reaches it after a sequential phase that
    ran through. *)
Lemma main_parallel sched w w1 :
  let cwd := getcwd w in
  let base := PurePath.of_str cwd in
  let out := PurePath.div base (OUT_DIRNAME cfg) in
  let par := Split.par_part (NOTEBOOKS cfg) in
  NOTEBOOKS cfg <> [] ->
  seq_phase Notebook engine cfg base out (Split.seq_part (NOTEBOOKS cfg)) w
  = (Done tt, w1) ->
  exists ps completed w2 evs,
    Permutation ps (map (located cwd) par) /\
    settled engine cfg out
      (logs [EvPrint MsgParallelStart; EvPool (Z.min 2 (Py.len par))] w1)
      ps completed w2 /\
    completed.*1 = ps /\
    trace (main Notebook engine cfg sched w).2 = trace w1 ++ evs /\
    calls evs = ps /\
    pools evs = [Z.min 2 (Py.len par)] /\
    Forall (fun pr => forall q, pr.2 = Done q ->
                                q = out_path_of pr.1 out /\ q ∈ writes evs)
           completed /\
    trace (main Notebook engine cfg sched w).2
    = trace w2 ++ map EvPrint (error_lines completed)
              ++ (if existsb (fun pr => is_raise pr.2) completed
                     && negb (ALLOW_ERRORS cfg)
                  then [] else [EvPrint (MsgFinished out)]) /\
    exit_status (main Notebook engine cfg sched w).1
    = (if existsb (fun pr => is_raise pr.2) completed
          && negb (ALLOW_ERRORS cfg)
       then 1 else 0).
Proof.
  intros cwd base out par Hne Hseq.
  destruct (seq_phase_spec _ engine cfg cwd out
              (Split.seq_part (NOTEBOOKS cfg)) w eq_refl)
    as (_ & _ & _ & Hc1 & _).
  fold base in Hc1. rewrite Hseq in Hc1. simpl in Hc1.
  assert (Hpar : par <> []).
  { intros Hnil. pose proof (par_part_truthy (NOTEBOOKS cfg) Hne) as Ht.
    fold par in Ht. by rewrite Hnil in Ht. }
  destruct (par_phase_spec _ engine cfg cwd out sched par w1 Hc1 Hpar)
    as (ps & completed & w2 & evs & evs' & Hperm & Hset & Ht & Hc & Hcalls
        & Hpools & Hfst & Hall & Hphase & Hlines & Hc' & Hw' & Hp').
  rewrite main_phases by done. fold cwd base out par.
  rewrite Hseq. unfold base. rewrite Hphase.
  set (failed := existsb _ completed && negb (ALLOW_ERRORS cfg)).
  exists ps, completed, w2,
    ([EvPrint MsgParallelStart; EvPool (Z.min 2 (Py.len par))] ++ evs ++ evs'
     ++ (if failed then [] else [EvPrint (MsgFinished out)])).
  split_and!; try done.
  - destruct failed; simpl; rewrite Ht; rewrite <- ?app_assoc; simpl;
      rewrite ?app_nil_r; reflexivity.
  - rewrite !calls_app, Hcalls, Hc'.
    destruct failed; simpl; rewrite ?app_nil_r; reflexivity.
  - rewrite !pools_app, Hpools, Hp'. by destruct failed.
  - eapply Forall_impl; [exact Hall|]. intros pr Hpr q Hq.
    destruct (Hpr q Hq) as [-> Hin]. split; [done|].
    simpl. rewrite writes_app. apply elem_of_app. by left.
  - subst failed. rewrite <- Hlines. destruct (_ && _); simpl;
      rewrite ?app_nil_r; rewrite <- ?app_assoc; reflexivity.
  - subst failed. by destruct (_ && _).
Qed.


(** C7.  The pool of the parallel phase has [min(2, len(par_part))]
    workers: one for a list of one notebook, two for a list of two or
    more. *)
Theorem pool_size sched w w1 :
  let cwd := getcwd w in
  let base := PurePath.of_str cwd in
  let out := PurePath.div base (OUT_DIRNAME cfg) in
  let par := Split.par_part (NOTEBOOKS cfg) in
  NOTEBOOKS cfg <> [] ->
  seq_phase Notebook engine cfg base out (Split.seq_part (NOTEBOOKS cfg)) w
  = (Done tt, w1) ->
  pools (trace (run Notebook engine cfg sched w).2)
  = pools (trace w1) ++ [Z.min 2 (Py.len par)] /\
  pools (trace w1) = pools (trace w) /\
  (length (NOTEBOOKS cfg) = 1%nat -> Z.min 2 (Py.len par) = 1) /\
  ((2 <= length (NOTEBOOKS cfg))%nat -> Z.min 2 (Py.len par) = 2).
Proof.
  intros cwd base out par Hne Hseq.
  destruct (main_parallel sched w w1 Hne Hseq)
    as (ps & completed & w2 & evs & _ & _ & _ & Ht & _ & Hpools & _).
  destruct (seq_phase_spec _ engine cfg cwd out
              (Split.seq_part (NOTEBOOKS cfg)) w eq_refl)
    as (evs1 & k & Ht1 & _ & Hp1 & _).
  fold base in Ht1. rewrite Hseq in Ht1. simpl in Ht1.
  pose proof (par_part_length (NOTEBOOKS cfg)) as Hlen. fold par in Hlen.
  rewrite run_main. simpl. rewrite Ht, pools_app, Hpools.
  rewrite Ht1, pools_app, Hp1, app_nil_r.
  unfold Py.len. split_and!; try done; lia.
Qed.

(** The entries of [run_notebook] in a run of [main]: the located paths of
    a prefix of the sequential subset, in order, then, when the parallel
    phase is reached, those of the parallel subset in completion order. *)
Lemma main_calls sched w :
  NOTEBOOKS cfg <> [] ->
  exists evs k ps,
    trace (main Notebook engine cfg sched w).2 = trace w ++ evs /\
    calls evs
    = map (located (getcwd w)) (take k (Split.seq_part (NOTEBOOKS cfg))) ++ ps /\
    (ps = [] \/
     Permutation ps (map (located (getcwd w)) (Split.par_part (NOTEBOOKS cfg)))).
Proof.
  intros Hne.
  destruct (seq_phase_spec _ engine cfg (getcwd w)
              (PurePath.div (PurePath.of_str (getcwd w)) (OUT_DIRNAME cfg))
              (Split.seq_part (NOTEBOOKS cfg)) w eq_refl)
    as (evs1 & k & Ht1 & _ & _ & Hcalls1 & Hr1).
  destruct (seq_phase _ _ _ _ _ _ w) as [r1 w1] eqn:Hseq. simpl in *.
  destruct Hr1 as [[-> ->]|[-> _]].
  - destruct (main_parallel sched w w1 Hne Hseq)
      as (ps & completed & w2 & evs & Hperm & _ & _ & Ht & Hcalls & _).
    exists (evs1 ++ evs), (length (Split.seq_part (NOTEBOOKS cfg))), ps.
    rewrite Ht, Ht1, calls_app, Hcalls1, Hcalls.
    rewrite <- app_assoc. split_and!; try done. by right.
  - exists evs1, k, []. rewrite main_phases by done. rewrite Hseq. simpl.
    rewrite app_nil_r. split_and!; try done. by left.
Qed.

(** C10.  Every path [run_notebook] is entered with, in either phase, is
    absolute and comes from a configured entry: an entry that is absolute
    is passed as it parses, a relative one is resolved against the working
    directory. *)
Theorem paths_absolute sched w :
  let cwd := getcwd w in
  PurePath.is_absolute (PurePath.of_str cwd) = true ->
  exists evs,
    trace (run Notebook engine cfg sched w).2 = trace w ++ evs /\
    Forall (fun p =>
      PurePath.is_absolute p = true /\
      exists nb, nb ∈ NOTEBOOKS cfg /\
        (PurePath.is_absolute (PurePath.of_str nb) = true ->
           p = PurePath.of_str nb) /\
        (PurePath.is_absolute (PurePath.of_str nb) = false ->
           p = PurePath.resolve (PurePath.of_str cwd)
                 (PurePath.div (PurePath.of_str cwd) nb)))
      (calls evs).
Proof.
  intros cwd Hcwd. rewrite run_main. simpl.
  destruct (decide (NOTEBOOKS cfg = [])) as [Hnil|Hne].
  - exists [EvPrint MsgEmptyList]. unfold main. rewrite Hnil. simpl.
    split; [done|]. constructor.
  - destruct (main_calls sched w Hne) as (evs & k & ps & Ht & Hcalls & Hps).
    exists evs. split; [done|]. rewrite Hcalls.
    assert (Hloc : forall nb, nb ∈ NOTEBOOKS cfg ->
      PurePath.is_absolute (located cwd nb) = true /\
      exists nb', nb' ∈ NOTEBOOKS cfg /\
        (PurePath.is_absolute (PurePath.of_str nb') = true ->
           located cwd nb = PurePath.of_str nb') /\
        (PurePath.is_absolute (PurePath.of_str nb') = false ->
           located cwd nb = PurePath.resolve (PurePath.of_str cwd)
                              (PurePath.div (PurePath.of_str cwd) nb'))).
    { intros nb Hnb. split; [by apply located_absolute|].
      exists nb. split; [done|]. unfold located.
      split; intros ->; reflexivity. }
    apply Forall_app. split.
    + apply Forall_forall. intros p Hp.
      apply list_elem_of_fmap in Hp as (nb & -> & Hnb).
      apply Hloc. by eapply seq_part_prefix_subset.
    + destruct Hps as [->|Hperm]; [constructor|].
      apply Forall_forall. intros p Hp. rewrite Hperm in Hp.
      apply list_elem_of_fmap in Hp as (nb & -> & Hnb).
      apply Hloc. by apply par_part_subset.
Qed.

End Process.

(* ===================================================================== *)
(** ** The properties on concrete runs *)
(* ===================================================================== *)

Section Runs.

Import Host Runner Obs.

Lemma pair_eta {A B} (x : A * B) (a : A) : x.1 = a -> x = (a, x.2).
Proof. intros <-. by destruct x. Qed.

(** Two notebooks of the same name in two directories: both succeed and
    both write [/w/executed/x_executed.ipynb]. *)
Lemma same_stem_same_output :
  Split.par_part (NOTEBOOKS (Scenario.config ["a/x.ipynb"; "b/x.ipynb"] false))
  = ["a/x.ipynb"; "b/x.ipynb"] /\
  located Scenario.cwd "a/x.ipynb" <> located Scenario.cwd "b/x.ipynb" /\
  (run nat Scenario.engine
     (Scenario.config ["a/x.ipynb"; "b/x.ipynb"] false) []
     (Scenario.world [("a/x.ipynb", 1%nat); ("b/x.ipynb", 2%nat)])).1 = 0 /\
  writes (trace (run nat Scenario.engine
                   (Scenario.config ["a/x.ipynb"; "b/x.ipynb"] false) []
                   (Scenario.world [("a/x.ipynb", 1%nat); ("b/x.ipynb", 2%nat)])).2)
  = [mkPath true ["w"; "executed"; "x_executed.ipynb"];
     mkPath true ["w"; "executed"; "x_executed.ipynb"]].
Proof.
  split; [reflexivity|]. split; [by vm_compute|].
  split; vm_compute; reflexivity.
Qed.

(** The call on [/w/a.ipynb] in an empty file system. *)
Lemma missing_notebook_not_found_witness :
  fs (Scenario.world []) !! located Scenario.cwd "a.ipynb" = None /\
  exists evs,
    run_notebook nat Scenario.engine (Scenario.config ["a.ipynb"] false)
      (located Scenario.cwd "a.ipynb") Scenario.out_dir (Scenario.world [])
    = (Raise (Exc (FileNotFoundError (located Scenario.cwd "a.ipynb"))),
       logs evs (Scenario.world [])) /\
    engine_runs evs = 0%nat /\ reads evs = [] /\
    mkdirs evs = [] /\ writes evs = [] /\
    fs (logs evs (Scenario.world [])) = fs (Scenario.world []).
Proof.
  split; [reflexivity|].
  apply (missing_notebook_not_found nat Scenario.engine
           (Scenario.config ["a.ipynb"] false) (Scenario.world [])).
  reflexivity.
Defined.

(** The run with an empty list. *)
Lemma empty_list_exits_2_witness :
  NOTEBOOKS (Scenario.config [] false) = [] /\
  exists evs,
    run nat Scenario.engine (Scenario.config [] false) []
      (Scenario.world [("a.ipynb", 1%nat)])
    = (2, logs evs (Scenario.world [("a.ipynb", 1%nat)])) /\
    calls evs = [] /\ reads evs = [] /\ engine_runs evs = 0%nat /\
    mkdirs evs = [] /\ writes evs = [] /\ pools evs = [] /\
    fs (logs evs (Scenario.world [("a.ipynb", 1%nat)]))
    = fs (Scenario.world [("a.ipynb", 1%nat)]).
Proof.
  split; [reflexivity|].
  apply (empty_list_exits_2 nat Scenario.engine (Scenario.config [] false)).
  reflexivity.
Defined.

(** Four notebooks, the second missing: the run stops after the second
    call, before the third and fourth, which form the parallel subset. *)
Lemma sequential_failure_halts_witness :
  Split.seq_part (NOTEBOOKS Scenario.halting_cfg) = ["a.ipynb"; "b.ipynb"] /\
  (run nat Scenario.engine Scenario.halting_cfg [] Scenario.halting_world).1 = 1 /\
  calls (trace (run nat Scenario.engine Scenario.halting_cfg []
                  Scenario.halting_world).2)
  = [located Scenario.cwd "a.ipynb"; located Scenario.cwd "b.ipynb"] /\
  pools (trace (run nat Scenario.engine Scenario.halting_cfg []
                  Scenario.halting_world).2) = [].
Proof.
  split; [reflexivity|].
  destruct (sequential_failure_halts nat Scenario.engine Scenario.halting_cfg
              [] Scenario.halting_world ["a.ipynb"] "b.ipynb" []
              Scenario.halting_w1
              (Exc (FileNotFoundError (located Scenario.cwd "b.ipynb")))
              Scenario.halting_w2)
    as (e' & evs & _ & Hrun & Ht & Hcalls & Hpools).
  - reflexivity.
  - apply pair_eta. vm_compute. reflexivity.
  - apply pair_eta. vm_compute. reflexivity.
  - rewrite Ht, Hrun. simpl trace. rewrite app_nil_l, Hcalls, Hpools.
    split; [reflexivity|]. split; reflexivity.
Defined.


(** A pool of two workers for two notebooks, of one for one. *)
Lemma pool_size_witness :
  NOTEBOOKS (Scenario.pair_cfg false) <> [] /\
  pools (trace (run nat Scenario.engine (Scenario.pair_cfg false) []
                  Scenario.pair_world).2) = [2] /\
  NOTEBOOKS (Scenario.config ["ok.ipynb"] false) <> [] /\
  pools (trace (run nat Scenario.engine (Scenario.config ["ok.ipynb"] false) []
                  Scenario.pair_world).2) = [1].
Proof.
  split; [discriminate|].
  destruct (pool_size nat Scenario.engine (Scenario.pair_cfg false) []
              Scenario.pair_world Scenario.pair_world)
    as (Hpools & _ & _ & H2); [discriminate | reflexivity |].
  destruct (pool_size nat Scenario.engine (Scenario.config ["ok.ipynb"] false)
              [] Scenario.pair_world Scenario.pair_world)
    as (Hpools1 & _ & H1 & _); [discriminate | reflexivity |].
  split; [|split; [discriminate|]].
  - rewrite Hpools, H2; [reflexivity | simpl; lia].
  - rewrite Hpools1, H1; reflexivity.
Defined.

(** A relative and an absolute entry in working directory [/w]. *)
Lemma paths_absolute_witness :
  PurePath.is_absolute (PurePath.of_str (getcwd Scenario.pair_world)) = true /\
  exists evs,
    trace (run nat Scenario.engine Scenario.mixed_cfg [] Scenario.pair_world).2
    = trace Scenario.pair_world ++ evs /\
    Forall (fun p =>
      PurePath.is_absolute p = true /\
      exists nb, nb ∈ NOTEBOOKS Scenario.mixed_cfg /\
        (PurePath.is_absolute (PurePath.of_str nb) = true ->
           p = PurePath.of_str nb) /\
        (PurePath.is_absolute (PurePath.of_str nb) = false ->
           p = PurePath.resolve
                 (PurePath.of_str (getcwd Scenario.pair_world))
                 (PurePath.div (PurePath.of_str (getcwd Scenario.pair_world))
                               nb)))
      (calls evs).
Proof.
  split; [reflexivity|].
  apply (paths_absolute nat Scenario.engine Scenario.mixed_cfg []
           Scenario.pair_world).
  reflexivity.
Defined.

(** The call on a notebook in which a cell fails writes the [_FAILED]
    copy and nothing else, and raises the cell error. *)
Lemma one_output_file_witness :
  exists evs,
    trace (run_notebook nat Scenario.engine (Scenario.pair_cfg false)
             (located Scenario.cwd "bad.ipynb") Scenario.out_dir
             Scenario.pair_world).2
    = trace Scenario.pair_world ++ evs /\
    writes evs = [mkPath true ["w"; "executed"; "bad_FAILED.ipynb"]] /\
    (run_notebook nat Scenario.engine (Scenario.pair_cfg false)
       (located Scenario.cwd "bad.ipynb") Scenario.out_dir
       Scenario.pair_world).1
    = Raise (Exc (CellExecutionError "boom")) /\
    fs (run_notebook nat Scenario.engine (Scenario.pair_cfg false)
          (located Scenario.cwd "bad.ipynb") Scenario.out_dir
          Scenario.pair_world).2
      !! mkPath true ["w"; "executed"; "bad_FAILED.ipynb"]
    = Some (NbFile 0%nat).
Proof.
  destruct (one_output_file nat Scenario.engine (Scenario.pair_cfg false)
              Scenario.pair_world (located Scenario.cwd "bad.ipynb")
              Scenario.out_dir)
    as (evs & Ht & _ & _ & _ & _ & Hcase).
  exists evs. split; [exact Ht|].
  change (engine_answer Scenario.engine (Scenario.pair_cfg false)
            (located Scenario.cwd "bad.ipynb") Scenario.pair_world)
    with (Some (Raised (CellExecutionError "boom") 0%nat)) in Hcase.
  change (save_error
            (engine_leaves Scenario.engine (Scenario.pair_cfg false)
               (located Scenario.cwd "bad.ipynb") Scenario.pair_world)
            Scenario.out_dir
            (failed_path_of (located Scenario.cwd "bad.ipynb")
               Scenario.out_dir))
    with (@None Exception) in Hcase.
  destruct Hcase as (Hr & Hw & Hfs).
  split; [exact Hw|]. split; [exact Hr | exact Hfs].
Defined.

(** A regular file where the output directory should be: the engine runs
    the notebook to its end, and the call raises the error of [mkdir] and
    writes no [_executed] copy; in the notebook of which a cell fails the
    call raises the error of [mkdir], not the cell error, and writes no
    [_FAILED] copy. *)
Lemma blocked_out_dir_no_copy :
  fs Scenario.blocked_world !! Scenario.out_dir = Some RawFile /\
  engine_answer Scenario.engine (Scenario.pair_cfg false)
    (located Scenario.cwd "ok.ipynb") Scenario.blocked_world
  = Some (Returned 2%nat) /\
  run_notebook nat Scenario.engine (Scenario.pair_cfg false)
    (located Scenario.cwd "ok.ipynb") Scenario.out_dir Scenario.blocked_world
  = (Raise (Exc (OtherError "FileExistsError")),
     logs [EvCall (located Scenario.cwd "ok.ipynb");
           EvPrint (MsgStart (located Scenario.cwd "ok.ipynb"));
           EvRead (located Scenario.cwd "ok.ipynb");
           EvEngine (ep_of (Scenario.pair_cfg false)) "/w";
           EvMkdir Scenario.out_dir]
          Scenario.blocked_world) /\
  engine_answer Scenario.engine (Scenario.pair_cfg false)
    (located Scenario.cwd "bad.ipynb") Scenario.blocked_world
  = Some (Raised (CellExecutionError "boom") 0%nat) /\
  run_notebook nat Scenario.engine (Scenario.pair_cfg false)
    (located Scenario.cwd "bad.ipynb") Scenario.out_dir Scenario.blocked_world
  = (Raise (Exc (OtherError "FileExistsError")),
     logs [EvCall (located Scenario.cwd "bad.ipynb");
           EvPrint (MsgStart (located Scenario.cwd "bad.ipynb"));
           EvRead (located Scenario.cwd "bad.ipynb");
           EvEngine (ep_of (Scenario.pair_cfg false)) "/w";
           EvMkdir Scenario.out_dir]
          Scenario.blocked_world).
Proof. split_and!; vm_compute; reflexivity. Qed.

(** A working directory in which no directory can be made: the call
    raises the error of [mkdir] and writes nothing, and the run ends with
    status 1 after the one line that reports the failure of the first
    task and the one that reports the failure of the second. *)
Example read_only_out_dir :
  run_notebook nat Scenario.engine (Scenario.pair_cfg false)
    (located Scenario.cwd "ok.ipynb") Scenario.out_dir Scenario.read_only_world
  = (Raise (Exc (OtherError "PermissionError")),
     logs [EvCall (located Scenario.cwd "ok.ipynb");
           EvPrint (MsgStart (located Scenario.cwd "ok.ipynb"));
           EvRead (located Scenario.cwd "ok.ipynb");
           EvEngine (ep_of (Scenario.pair_cfg false)) "/w";
           EvMkdir Scenario.out_dir]
          Scenario.read_only_world) /\
  (run nat Scenario.engine (Scenario.pair_cfg false) []
     Scenario.read_only_world).1 = 1 /\
  writes (trace (run nat Scenario.engine (Scenario.pair_cfg false) []
                   Scenario.read_only_world).2) = [] /\
  Obs.driver_lines (trace (run nat Scenario.engine (Scenario.pair_cfg false) []
                             Scenario.read_only_world).2)
  = [MsgParallelStart;
     MsgParallelError (located Scenario.cwd "ok.ipynb")
                      (OtherError "PermissionError");
     MsgParallelError (located Scenario.cwd "bad.ipynb")
                      (OtherError "PermissionError")].
Proof. split_and!; vm_compute; reflexivity. Qed.

(** One of two parallel notebooks fails, and it completes first: the
    other is still executed and its copy is in place at the end, next to
    the partial copy of the failed one; the failure is reported, and the
    exit status is 1, and 0 when errors are allowed. *)
Example one_of_two_fails :
  (run nat Scenario.engine (Scenario.pair_cfg false) [1%nat]
     Scenario.pair_world).1 = 1 /\
  (run nat Scenario.engine (Scenario.pair_cfg true) [1%nat]
     Scenario.pair_world).1 = 0 /\
  calls (trace (run nat Scenario.engine (Scenario.pair_cfg false) [1%nat]
                  Scenario.pair_world).2)
  = [located Scenario.cwd "bad.ipynb"; located Scenario.cwd "ok.ipynb"] /\
  Obs.driver_lines (trace (run nat Scenario.engine (Scenario.pair_cfg false)
                             [1%nat] Scenario.pair_world).2)
  = [MsgParallelStart;
     MsgParallelError (located Scenario.cwd "bad.ipynb")
                      (CellExecutionError "boom")] /\
  fs (run nat Scenario.engine (Scenario.pair_cfg false) [1%nat]
        Scenario.pair_world).2
    !! mkPath true ["w"; "executed"; "ok_executed.ipynb"]
  = Some (NbFile 2%nat) /\
  fs (run nat Scenario.engine (Scenario.pair_cfg false) [1%nat]
        Scenario.pair_world).2
    !! mkPath true ["w"; "executed"; "bad_FAILED.ipynb"]
  = Some (NbFile 0%nat).
Proof. repeat split; vm_compute; reflexivity. Qed.

End Runs.

(* ===================================================================== *)
(** ** More on the execute-and-save operation *)
(* ===================================================================== *)

Section RunNotebookMore.

Import Host Runner Obs.

Variable Notebook : Type.
Variable engine : Engine Notebook.
Variable cfg : Config.

Implicit Types (w : World Notebook) (p d : Path).

(** Everything the later lemmas need to know about the events of one
    call. *)
Lemma run_notebook_events w p d :
  exists evs,
    trace (run_notebook Notebook engine cfg p d w).2 = trace w ++ EvCall p :: evs /\
    getcwd (run_notebook Notebook engine cfg p d w).2 = getcwd w /\
    calls evs = [] /\ pools evs = [] /\ driver_lines evs = [] /\
    (length (writes evs) <= 1)%nat /\
    (forall c, (run_notebook Notebook engine cfg p d w).1 <> Raise (SystemExit c)) /\
    (forall q, (run_notebook Notebook engine cfg p d w).1 = Done q ->
               q = out_path_of p d /\ writes evs = [q]).
Proof.
  run_notebook_cases engine cfg w p d; rewrite Hrun; simpl;
    eexists; (split; [reflexivity|]); simpl; split_and!; try done; try lia.
  by intros q [= <-].
Qed.

(** X1.  When the path holds a directory or a file that is no notebook,
    the guard lets the call pass, the start line is printed and the read
    fails: the call raises an error that is neither the not-found error nor
    a cell error, the engine is not invoked, no directory is made and no
    file is written, and the files are as they were. *)
Theorem unreadable_fails_before_engine w p d x :
  fs w !! p = Some x -> (forall nb, x <> NbFile nb) ->
  exists kind evs,
    run_notebook Notebook engine cfg p d w
    = (Raise (Exc (OtherError kind)), logs evs w) /\
    evs = [EvCall p; EvPrint (MsgStart p); EvRead p] /\
    engine_runs evs = 0%nat /\ mkdirs evs = [] /\ writes evs = [] /\
    fs (logs evs w) = fs w.
Proof.
  intros Hp Hx.
  destruct (run_notebook_unreadable _ engine cfg w p d x Hp Hx) as [kind Hrun].
  exists kind, [EvCall p; EvPrint (MsgStart p); EvRead p]. by rewrite Hrun.
Qed.

(** X11.  A call invokes the engine at most once, and exactly once when
    the path holds a notebook: with the configured timeout, kernel name and
    error tolerance, and with the directory of the notebook as working
    directory, which is an absolute path when the notebook path is. *)
Theorem engine_invoked_in_notebook_dir w p d :
  exists evs,
    trace (run_notebook Notebook engine cfg p d w).2 = trace w ++ evs /\
    engine_calls evs
    = match fs w !! p with
      | Some (NbFile _) =>
          [({| timeout := TIMEOUT_SEC cfg;
               kernel_name := KERNEL_NAME cfg;
               allow_errors := ALLOW_ERRORS cfg |},
            PurePath.str (PurePath.parent p))]
      | _ => []
      end /\
    (PurePath.is_absolute p = true ->
     PurePath.starts_with_slash (PurePath.str (PurePath.parent p)) = true).
Proof.
  run_notebook_cases engine cfg w p d; rewrite Hrun; simpl;
    eexists; (split; [reflexivity|]); simpl; (split; [reflexivity|]);
    unfold PurePath.is_absolute, PurePath.str, PurePath.parent; simpl;
    by intros ->.
Qed.

(** *** The copy is never the source *)

Lemma substring_0_append (a t : string) :
  String.substring 0 (String.length a) (a +:+ t) = a.
Proof.
  induction a as [|c a IH]; [by destruct t|].
  rewrite append_cons. simpl. by rewrite IH.
Qed.

(** A found dot splits the string at its index. *)
Lemma rfind_dot_split (s : string) :
  0 <= PurePath.rfind_dot s ->
  exists a b, s = a +:+ String "." b /\
              Z.of_nat (String.length a) = PurePath.rfind_dot s.
Proof.
  induction s as [|c s IH]; simpl; [lia|].
  destruct (0 <=? PurePath.rfind_dot s) eqn:Hr.
  - intros _. destruct IH as (a & b & -> & Hlen); [lia|].
    exists (String c a), b. rewrite append_cons. split; [done|].
    simpl String.length. lia.
  - destruct (PurePath.is_dot c) eqn:Hc; [|lia].
    intros _. apply Ascii.eqb_eq in Hc as ->. by exists "", s.
Qed.

(** The name of a path is its stem followed by nothing or by a suffix that
    starts with a dot. *)
Lemma name_stem_suffix (p : Path) :
  exists sfx, PurePath.name p = PurePath.stem p +:+ sfx /\
              (sfx = "" \/ exists b, sfx = String "." b).
Proof.
  unfold PurePath.stem. destruct (_ && _) eqn:Hc.
  - apply andb_true_iff in Hc as [Hpos _].
    destruct (rfind_dot_split (PurePath.name p)) as (a & b & Hsplit & Hlen);
      [lia|].
    exists (String "." b). split; [|by right; eexists].
    rewrite <- Hlen, Nat2Z.id. rewrite Hsplit at 2.
    by rewrite substring_0_append.
  - exists "". split; [by rewrite append_nil_r | by left].
Qed.

Lemma name_snoc (a : bool) (ps : list string) (x : string) :
  PurePath.name (mkPath a (ps ++ [x])) = x.
Proof. unfold PurePath.name; simpl. apply List.last_last. Qed.

Lemma copies_not_source p d :
  PurePath.components_ok p ->
  out_path_of p d <> p /\ failed_path_of p d <> p.
Proof.
  intros Hp. destruct (name_stem_suffix p) as (sfx & Hname & Hsfx).
  rewrite out_path_component, failed_path_component by done.
  split; intros Heq; apply (f_equal PurePath.name) in Heq;
    rewrite name_snoc, Hname in Heq; apply (inj _) in Heq; subst sfx;
    by destruct Hsfx as [?|[? ?]].
Qed.

(** X2.  A call never writes to the path it reads: for a path as pathlib
    builds them, neither the [_executed] nor the [_FAILED] file is the
    notebook itself, so the source notebook is not among the files
    written. *)
Theorem source_not_overwritten w p d :
  PurePath.components_ok p ->
  out_path_of p d <> p /\ failed_path_of p d <> p /\
  exists evs,
    trace (run_notebook Notebook engine cfg p d w).2 = trace w ++ evs /\
    p ∉ writes evs.
Proof.
  intros Hp. destruct (copies_not_source p d Hp) as [Hout Hfailed].
  split; [done|]. split; [done|].
  run_notebook_cases engine cfg w p d; rewrite Hrun; simpl;
    eexists; (split; [reflexivity|]); simpl;
    try apply not_elem_of_nil;
    by intros ?%list_elem_of_singleton.
Qed.

(** *** The output directory *)

(** X3.  The output directory is made only for a copy: [mkdir] is called
    on it once when the engine returned or raised a cell-execution error,
    and not at all otherwise; a file is only written immediately after that
    call; after a write the output directory is a directory. *)
Theorem out_dir_made_with_copy w p d :
  exists evs,
    trace (run_notebook Notebook engine cfg p d w).2 = trace w ++ evs /\
    mkdirs evs = match engine_answer engine cfg p w with
                 | Some (Returned _) => [d]
                 | Some (Raised e _) => if is_cell_error e then [d] else []
                 | None => []
                 end /\
    (forall q, q ∈ writes evs ->
       exists pre doc post, evs = pre ++ EvMkdir d :: EvWrite q doc :: post) /\
    (writes evs <> [] ->
       fs (run_notebook Notebook engine cfg p d w).2 !! d = Some Dir).
Proof.
  unfold engine_answer.
  run_notebook_cases engine cfg w p d; rewrite Hrun; simpl;
    rewrite ?He; simpl; rewrite ?Hk;
    eexists; (split; [reflexivity|]); simpl; (split; [reflexivity|]);
    split; try done; try (by intros q ?%elem_of_nil);
    try (by intros _; apply lookup_saved_dir).
  - intros q ->%list_elem_of_singleton.
    by exists [EvCall p; EvPrint (MsgStart p); EvRead p;
               EvEngine (ep_of cfg) (PurePath.str (PurePath.parent p))],
              doc, [EvPrint (MsgDone (out_path_of p d))].
  - intros q ->%list_elem_of_singleton.
    by exists [EvCall p; EvPrint (MsgStart p); EvRead p;
               EvEngine (ep_of cfg) (PurePath.str (PurePath.parent p))],
              doc, [EvPrint (MsgFailedSaved p (failed_path_of p d))].
Qed.

(** With a quiet engine a call leaves every file in place, save the one
    it writes. *)
Lemma run_notebook_keeps w p d :
  quiet engine ->
  exists evs,
    trace (run_notebook Notebook engine cfg p d w).2 = trace w ++ evs /\
    forall q x, PurePath.normal q ∉ map PurePath.normal (writes evs) ->
                fs w !! q = Some x ->
                fs (run_notebook Notebook engine cfg p d w).2 !! q = Some x.
Proof.
  intros Hquiet.
  run_notebook_cases engine cfg w p d; rewrite Hrun; simpl;
    eexists; (split; [reflexivity|]); simpl; intros q x Hq Hx; try done;
    pose proof (Hquiet (ep_of cfg) nb (PurePath.str (PurePath.parent p)) (fs w))
      as Hm; rewrite He in Hm; simpl in Hm; subst m; try done.
  - by apply lookup_made_keeps.
  - apply lookup_saved_keeps; try done.
    intros Heq. apply Hq. rewrite Heq. constructor.
  - by apply lookup_made_keeps.
  - apply lookup_saved_keeps; try done.
    intros Heq. apply Hq. rewrite Heq. constructor.
Qed.

End RunNotebookMore.

(* ===================================================================== *)
(** ** The shape of a run *)
(* ===================================================================== *)

Section Shape.

Import Host Runner Obs.

Variable Notebook : Type.
Variable engine : Engine Notebook.
Variable cfg : Config.

Implicit Types (w : World Notebook) (p d : Path) (cwd nb : string).

Lemma writes_app' (t1 t2 : list (Event Notebook)) :
  writes (t1 ++ t2) = writes t1 ++ writes t2.
Proof. apply omap_app. Qed.

Lemma calls_app' (t1 t2 : list (Event Notebook)) :
  calls (t1 ++ t2) = calls t1 ++ calls t2.
Proof. apply omap_app. Qed.

Lemma pools_app' (t1 t2 : list (Event Notebook)) :
  pools (t1 ++ t2) = pools t1 ++ pools t2.
Proof. apply omap_app. Qed.

Lemma driver_lines_app (t1 t2 : list (Event Notebook)) :
  driver_lines (t1 ++ t2) = driver_lines t1 ++ driver_lines t2.
Proof. apply omap_app. Qed.

(** The events of a chain of settled tasks. *)
Lemma settled_events d w ps completed w' :
  settled engine cfg d w ps completed w' ->
  exists evs,
    trace w' = trace w ++ evs /\ getcwd w' = getcwd w /\
    calls evs = ps /\ pools evs = [] /\ driver_lines evs = [] /\
    (length (writes evs) <= length ps)%nat /\
    completed.*1 = ps /\
    Forall (fun pr => (forall c, pr.2 <> Raise (SystemExit c)) /\
                      forall q, pr.2 = Done q ->
                                q = out_path_of pr.1 d /\ q ∈ writes evs)
           completed.
Proof.
  induction 1 as [w|w p r w' ps rs w'' Hrun _ IH].
  - exists []. rewrite app_nil_r. by split_and!.
  - destruct IH as (evs' & Ht' & Hc' & Hcalls' & Hpools' & Hlines' & Hlen'
                    & Hfst' & Hall').
    destruct (run_notebook_events _ engine cfg w p d)
      as (evs & Ht & Hc & Hcalls & Hpools & Hlines & Hlen & Hexit & Hdone).
    rewrite Hrun in Ht, Hc, Hexit, Hdone. simpl in Ht, Hc, Hexit, Hdone.
    exists (EvCall p :: evs ++ evs').
    split_and!.
    + rewrite Ht', Ht. by rewrite <- app_assoc.
    + congruence.
    + change (calls (EvCall p :: evs ++ evs')) with (p :: calls (evs ++ evs')).
      by rewrite calls_app', Hcalls, Hcalls'.
    + change (pools (EvCall p :: evs ++ evs')) with (pools (evs ++ evs')).
      by rewrite pools_app', Hpools, Hpools'.
    + change (driver_lines (EvCall p :: evs ++ evs'))
        with (driver_lines (evs ++ evs')).
      by rewrite driver_lines_app, Hlines, Hlines'.
    + change (writes (EvCall p :: evs ++ evs')) with (writes (evs ++ evs')).
      rewrite writes_app', length_app. simpl. lia.
    + rewrite fmap_cons. simpl. by f_equal.
    + change (writes (EvCall p :: evs ++ evs')) with (writes (evs ++ evs')).
      rewrite writes_app'. constructor; simpl.
      * split; [done|]. intros q Hq. destruct (Hdone q Hq) as [-> Hw].
        split; [done|]. rewrite Hw. apply elem_of_app. left.
        by apply list_elem_of_singleton.
      * eapply Forall_impl; [exact Hall'|]. intros pr [Hx Hw]. split; [done|].
        intros q Hq. destruct (Hw q Hq) as [-> Hin]. split; [done|].
        apply elem_of_app. by right.
Qed.

(** The sequential loop as a chain of settled calls: it goes through the
    first [k] entries, all of which returned but possibly the last, and it
    halts exactly when the last one raised. *)
Lemma seq_phase_settled cwd d l w :
  getcwd w = cwd ->
  exists k completed w',
    settled engine cfg d w (map (located cwd) (take k l)) completed w' /\
    ((seq_phase Notebook engine cfg (PurePath.of_str cwd) d l w = (Done tt, w')
      /\ k = length l /\ Forall returned completed)
     \/
     (exists pre p e,
        completed = pre ++ [(p, Raise (Exc e))] /\ Forall returned pre /\
        (0 < k <= length l)%nat /\
        seq_phase Notebook engine cfg (PurePath.of_str cwd) d l w
        = (Raise (SystemExit 1), logs [EvPrint (MsgHalted p e)] w'))).
Proof.
  revert w. induction l as [|nb l IH]; intros w Hcwd.
  - exists 0%nat, [], w. split; [constructor|]. left. by split_and!.
  - rewrite (seq_phase_cons _ engine cfg cwd) by done.
    destruct (run_notebook_events _ engine cfg w (located cwd nb) d)
      as (evs & _ & Hc & _ & _ & _ & _ & Hexit & _).
    destruct (run_notebook _ _ _ _ _ _) as [[q|[e|c]] w1] eqn:Hrun;
      simpl in Hc, Hexit.
    + rewrite Hcwd in Hc.
      destruct (IH w1 Hc) as (k & completed & w' & Hset & Hcase).
      exists (S k), ((located cwd nb, Done q) :: completed), w'.
      split; [by econstructor|].
      destruct Hcase as [(Hseq & -> & Hall)|(pre & p & e & -> & Hpre & Hk & Hseq)].
      * left. split_and!; try done. by constructor.
      * right. exists ((located cwd nb, Done q) :: pre), p, e.
        split_and!; try done; try (simpl; lia). by constructor.
    + exists 1%nat, [(located cwd nb, Raise (Exc e))], w1.
      split; [econstructor; [exact Hrun | constructor]|].
      right. exists [], (located cwd nb), e.
      split_and!; try done; simpl; lia.
    + by destruct (Hexit c).
Qed.

(** The parallel phase on a non-empty subset: the banner, the pool, a
    chain of settled tasks in some completion order, the error lines, and
    the exit when some future holds an exception and errors are not
    allowed. *)
Lemma par_phase_shape cwd d sched (par : list string) w1 :
  getcwd w1 = cwd -> par <> [] ->
  exists ps completed w2,
    Permutation ps (map (located cwd) par) /\
    settled engine cfg d
      (logs [EvPrint MsgParallelStart; EvPool (Z.min 2 (Py.len par))] w1)
      ps completed w2 /\
    par_phase Notebook engine cfg sched (PurePath.of_str cwd) d par w1
    = ((if existsb (fun pr => is_raise pr.2) completed
           && negb (ALLOW_ERRORS cfg)
        then Raise (SystemExit 1) else Done tt),
       logs (map EvPrint (error_lines completed)) w2).
Proof.
  intros Hcwd Hne. unfold par_phase.
  replace (Py.truthy par) with true by (by destruct par).
  set (futures := map (fun nb => (located cwd nb,
                   run_notebook Notebook engine cfg (located cwd nb) d)) par).
  assert (Hfut : futures
                 = map (fun p => (p, run_notebook Notebook engine cfg p d))
                       (map (located cwd) par)).
  { unfold futures. by rewrite map_map. }
  pose proof (completion_order_perm sched futures) as Hperm.
  rewrite Hfut in Hperm at 3.
  apply Permutation_map_inv in Hperm as (ps & Horder & Hps).
  destruct (run_pool_settled _ engine cfg d ps
              (logs [EvPrint MsgParallelStart; EvPool (Z.min 2 (Py.len par))] w1))
    as (completed & w2 & evs & Hpool & Hset & _ & _ & _ & _ & _ & Hall).
  exists ps, completed, w2. split; [by symmetry|]. split; [done|].
  unfold bind at 1. unfold print, emit at 1. unfold bind at 1.
  unfold emit at 1. unfold bind at 1.
  rewrite (submit_all_located _ engine cfg cwd) by done. fold futures.
  unfold bind at 1. rewrite Horder.
  change (log (EvPool (Z.min 2 (Py.len par))) (log (EvPrint MsgParallelStart) w1))
    with (logs [EvPool (Z.min 2 (Py.len par))]
               (logs [EvPrint MsgParallelStart] w1)).
  rewrite logs_logs. simpl app. rewrite Hpool.
  unfold bind at 1. rewrite drain_lines.
  - rewrite orb_false_l. cbv beta iota.
    destruct (existsb _ completed && negb (ALLOW_ERRORS cfg)); reflexivity.
  - eapply Forall_impl; [exact Hall|]. by intros ? [? _].
Qed.

(** A run on a non-empty list: a chain of sequential calls that either
    halts the process at the first call that raises, or runs through and is
    followed by the parallel phase and, on success, the closing line. *)
Lemma main_shape sched w :
  NOTEBOOKS cfg <> [] ->
  let cwd := getcwd w in
  let out := PurePath.div (PurePath.of_str cwd) (OUT_DIRNAME cfg) in
  let seq := Split.seq_part (NOTEBOOKS cfg) in
  let par := Split.par_part (NOTEBOOKS cfg) in
  exists k done1 w1,
    settled engine cfg out w (map (located cwd) (take k seq)) done1 w1 /\
    ((exists pre p e,
        done1 = pre ++ [(p, Raise (Exc e))] /\ Forall returned pre /\
        (0 < k <= length seq)%nat /\
        main Notebook engine cfg sched w
        = (Raise (SystemExit 1), logs [EvPrint (MsgHalted p e)] w1))
     \/
     (k = length seq /\ Forall returned done1 /\
      exists ps done2 w2,
        Permutation ps (map (located cwd) par) /\
        settled engine cfg out
          (logs [EvPrint MsgParallelStart; EvPool (Z.min 2 (Py.len par))] w1)
          ps done2 w2 /\
        main Notebook engine cfg sched w
        = if existsb (fun pr => is_raise pr.2) done2 && negb (ALLOW_ERRORS cfg)
          then (Raise (SystemExit 1),
                logs (map EvPrint (error_lines done2)) w2)
          else (Done tt,
                logs (map EvPrint (error_lines done2)
                      ++ [EvPrint (MsgFinished out)]) w2))).
Proof.
  intros Hne cwd out seq par. subst seq par out cwd.
  remember (getcwd w) as cwd eqn:Hcwd.
  remember (PurePath.div (PurePath.of_str cwd) (OUT_DIRNAME cfg)) as out
    eqn:Hout.
  destruct (seq_phase_settled cwd out (Split.seq_part (NOTEBOOKS cfg)) w
              (eq_sym Hcwd))
    as (k & done1 & w1 & Hset & Hcase).
  exists k, done1, w1. split; [done|].
  rewrite (main_phases _ engine cfg sched w Hne). cbv zeta.
  rewrite <- Hcwd, <- Hout.
  set (par := Split.par_part (NOTEBOOKS cfg)) in *.
  destruct Hcase as [(Hseq & -> & Hall)|(pre & p & e & -> & Hpre & Hk & Hseq)].
  - right. split; [done|]. split; [done|].
    destruct (settled_events _ _ _ _ _ Hset) as (_ & _ & Hc1 & _).
    rewrite <- Hcwd in Hc1.
    assert (Hpar : par <> []).
    { intros Hnil. pose proof (par_part_truthy (NOTEBOOKS cfg) Hne) as Ht.
      fold par in Ht. by rewrite Hnil in Ht. }
    clearbody par.
    destruct (par_phase_shape cwd out sched par w1 Hc1 Hpar)
      as (ps & done2 & w2 & Hperm & Hset2 & Hphase).
    exists ps, done2, w2. split; [done|]. split; [done|].
    rewrite Hseq, Hphase.
    destruct (existsb _ done2 && negb (ALLOW_ERRORS cfg)); [done|].
    by rewrite logs_logs.
  - left. exists pre, p, e. rewrite Hseq. split_and!; try done; lia.
Qed.

End Shape.

(* ===================================================================== *)
(** ** What a run does, as a whole *)
(* ===================================================================== *)

Section RunFacts.

Import Host Runner Obs.

Variable Notebook : Type.
Variable engine : Engine Notebook.
Variable cfg : Config.

Implicit Types (w : World Notebook) (p d : Path) (cwd nb : string).

Lemma main_empty sched w :
  NOTEBOOKS cfg = [] ->
  main Notebook engine cfg sched w
  = (Raise (SystemExit 2), logs [EvPrint MsgEmptyList] w).
Proof. intros H. unfold main. by rewrite H. Qed.

Lemma driver_lines_errors (completed : list (Path * Res Path)) :
  driver_lines (Notebook:=Notebook) (map EvPrint (error_lines completed))
  = error_lines completed.
Proof.
  induction completed as [|[p [q|[e|c]]] rest IH]; simpl; try done.
  cbn. by rewrite IH.
Qed.

(** The whole trace of a run on a non-empty list, in the two shapes a run
    can take. *)
Lemma main_trace sched w :
  NOTEBOOKS cfg <> [] ->
  let cwd := getcwd w in
  let out := PurePath.div (PurePath.of_str cwd) (OUT_DIRNAME cfg) in
  let seq := Split.seq_part (NOTEBOOKS cfg) in
  let par := Split.par_part (NOTEBOOKS cfg) in
  exists k done1 w1 evs1,
    settled engine cfg out w (map (located cwd) (take k seq)) done1 w1 /\
    trace w1 = trace w ++ evs1 /\
    calls evs1 = map (located cwd) (take k seq) /\
    pools evs1 = [] /\ driver_lines evs1 = [] /\
    (length (writes evs1) <= length (calls evs1))%nat /\
    Forall (fun pr => forall q, pr.2 = Done q ->
                                q = out_path_of pr.1 out /\ q ∈ writes evs1)
           done1 /\
    done1.*1 = map (located cwd) (take k seq) /\
    ((exists pre p e,
        done1 = pre ++ [(p, Raise (Exc e))] /\ Forall returned pre /\
        (0 < k <= length seq)%nat /\
        main Notebook engine cfg sched w
        = (Raise (SystemExit 1), logs [EvPrint (MsgHalted p e)] w1))
     \/
     (k = length seq /\ Forall returned done1 /\
      exists ps done2 w2 evs2,
        Permutation ps (map (located cwd) par) /\
        settled engine cfg out
          (logs [EvPrint MsgParallelStart; EvPool (Z.min 2 (Py.len par))] w1)
          ps done2 w2 /\
        trace w2
        = trace w1 ++ [EvPrint MsgParallelStart; EvPool (Z.min 2 (Py.len par))]
                   ++ evs2 /\
        calls evs2 = ps /\ pools evs2 = [] /\ driver_lines evs2 = [] /\
        (length (writes evs2) <= length (calls evs2))%nat /\
        Forall (fun pr => forall q, pr.2 = Done q ->
                                    q = out_path_of pr.1 out /\ q ∈ writes evs2)
               done2 /\
        done2.*1 = ps /\
        main Notebook engine cfg sched w
        = if existsb (fun pr => is_raise pr.2) done2 && negb (ALLOW_ERRORS cfg)
          then (Raise (SystemExit 1),
                logs (map EvPrint (error_lines done2)) w2)
          else (Done tt,
                logs (map EvPrint (error_lines done2)
                      ++ [EvPrint (MsgFinished out)]) w2))).
Proof.
  intros Hne cwd out seq par.
  destruct (main_shape _ engine cfg sched w Hne)
    as (k & done1 & w1 & Hset & Hcase).
  fold cwd out seq par in Hset, Hcase.
  destruct (settled_events _ engine cfg _ _ _ _ _ Hset)
    as (evs1 & Ht1 & _ & Hcalls1 & Hpools1 & Hlines1 & Hlen1 & Hfst1 & Hall1).
  exists k, done1, w1, evs1.
  split_and!; try done.
  - by rewrite Hcalls1, length_fmap in *.
  - eapply Forall_impl; [exact Hall1|]. by intros ? [_ ?].
  - destruct Hcase as [Hhalt|(Hk & Hret & ps & done2 & w2 & Hperm & Hset2 & Hmain)];
      [by left|right].
    split; [done|]. split; [done|].
    destruct (settled_events _ engine cfg _ _ _ _ _ Hset2)
      as (evs2 & Ht2 & _ & Hcalls2 & Hpools2 & Hlines2 & Hlen2 & Hfst2 & Hall2).
    exists ps, done2, w2, evs2.
    split_and!; try done.
    + rewrite Ht2. simpl. by rewrite <- app_assoc.
    + by rewrite Hcalls2.
    + eapply Forall_impl; [exact Hall2|]. by intros ? [_ ?].
Qed.

(** X5.  The process ends with status 0, 1 or 2, and with status 2
    exactly when the configured list is empty. *)
Theorem exit_status_cases sched w :
  ((run Notebook engine cfg sched w).1 = 0 \/
   (run Notebook engine cfg sched w).1 = 1 \/
   (run Notebook engine cfg sched w).1 = 2) /\
  ((run Notebook engine cfg sched w).1 = 2 <-> NOTEBOOKS cfg = []).
Proof.
  rewrite run_main. simpl.
  destruct (decide (NOTEBOOKS cfg = [])) as [Hnil|Hne].
  - rewrite main_empty by done. simpl. split; [lia|]. by split.
  - destruct (main_trace sched w Hne)
      as (k & done1 & w1 & evs1 & _ & _ & _ & _ & _ & _ & _ & _ & Hcase).
    destruct Hcase as [(pre & p & e & _ & _ & _ & ->)
                      |(_ & _ & ps & done2 & w2 & evs2 & _ & _ & _ & _ & _ & _
                        & _ & _ & _ & ->)].
    + simpl. split; [lia|]. split; [lia | by intros ?].
    + destruct (existsb _ done2 && negb (ALLOW_ERRORS cfg)); simpl;
        (split; [lia|]); (split; [lia | by intros ?]).
Qed.

(** X8.  No notebook is attempted more often than it is listed, and there
    is no retry: the paths [run_notebook] is entered with are, up to their
    order, part of the located entries of the list; at most one file is
    written for each entry, and at most one pool is opened. *)
Theorem no_notebook_twice sched w :
  exists evs,
    trace (run Notebook engine cfg sched w).2 = trace w ++ evs /\
    calls evs ⊆+ map (located (getcwd w)) (NOTEBOOKS cfg) /\
    (length (writes evs) <= length (calls evs))%nat /\
    (length (calls evs) <= length (NOTEBOOKS cfg))%nat /\
    (length (pools evs) <= 1)%nat.
Proof.
  rewrite run_main. simpl.
  assert (Hsub : forall (cs : list Path) (evs : list (Event Notebook)),
            calls evs = cs ->
            cs ⊆+ map (located (getcwd w)) (NOTEBOOKS cfg) ->
            (length (calls evs) <= length (NOTEBOOKS cfg))%nat).
  { intros cs evs -> Hcs. apply submseteq_length in Hcs.
    by rewrite length_map in Hcs. }
  destruct (decide (NOTEBOOKS cfg = [])) as [Hnil|Hne].
  - rewrite main_empty by done. exists [EvPrint MsgEmptyList]. simpl.
    split_and!; try done; try lia. apply submseteq_nil_l.
  - destruct (main_trace sched w Hne)
      as (k & done1 & w1 & evs1 & _ & Ht1 & Hcalls1 & Hpools1 & _ & Hlen1 & _
          & _ & Hcase).
    assert (Hmap : map (located (getcwd w)) (NOTEBOOKS cfg)
                   = map (located (getcwd w)) (Split.seq_part (NOTEBOOKS cfg))
                     ++ map (located (getcwd w))
                            (Split.par_part (NOTEBOOKS cfg))).
    { rewrite <- map_app. by rewrite seq_par_app. }
    assert (Hseq : map (located (getcwd w))
                     (take k (Split.seq_part (NOTEBOOKS cfg)))
                   ⊆+ map (located (getcwd w)) (Split.seq_part (NOTEBOOKS cfg))).
    { apply (fmap_submseteq (located (getcwd w))), submseteq_take. }
    destruct Hcase as [(pre & p & e & _ & _ & _ & ->)
                      |(_ & _ & ps & done2 & w2 & evs2 & Hperm & _ & Ht2
                        & Hcalls2 & Hpools2 & _ & Hlen2 & _ & _ & ->)].
    + exists (evs1 ++ [EvPrint (MsgHalted p e)]). simpl.
      assert (Hcs : calls (evs1 ++ [EvPrint (MsgHalted p e)])
                    ⊆+ map (located (getcwd w)) (NOTEBOOKS cfg)).
      { rewrite calls_app', Hcalls1, app_nil_r, Hmap.
        by apply submseteq_inserts_r. }
      split_and!.
      * rewrite Ht1. by rewrite <- app_assoc.
      * done.
      * rewrite writes_app', calls_app', !length_app. simpl. lia.
      * by eapply Hsub.
      * rewrite pools_app', Hpools1. simpl. lia.
    + set (tail := if existsb (fun pr => is_raise pr.2) done2
                      && negb (ALLOW_ERRORS cfg)
                   then map (EvPrint (Notebook:=Notebook)) (error_lines done2)
                   else map EvPrint (error_lines done2)
                        ++ [EvPrint (MsgFinished
                              (PurePath.div (PurePath.of_str (getcwd w))
                                            (OUT_DIRNAME cfg)))]).
      assert (Htail : calls tail = [] /\ writes tail = [] /\ pools tail = []).
      { unfold tail. destruct (_ && _);
          rewrite ?calls_app', ?writes_app', ?pools_app',
            ?calls_prints, ?writes_prints, ?pools_prints; done. }
      destruct Htail as (Hct & Hwt & Hpt).
      exists (evs1 ++ [EvPrint MsgParallelStart;
                       EvPool (Z.min 2 (Py.len (Split.par_part (NOTEBOOKS cfg))))]
              ++ evs2 ++ tail).
      assert (Hcs : calls (evs1 ++ [EvPrint MsgParallelStart;
                       EvPool (Z.min 2 (Py.len (Split.par_part (NOTEBOOKS cfg))))]
                     ++ evs2 ++ tail)
                    ⊆+ map (located (getcwd w)) (NOTEBOOKS cfg)).
      { rewrite !calls_app', Hcalls1, Hcalls2, Hct, app_nil_r, Hmap. simpl.
        apply submseteq_app; [done|]. by apply Permutation_submseteq. }
      split_and!.
      * unfold tail. destruct (_ && _); simpl; rewrite Ht2, Ht1;
          by rewrite <- !app_assoc.
      * done.
      * rewrite !writes_app', !calls_app', !length_app, Hwt, Hct. simpl. lia.
      * by eapply Hsub.
      * rewrite !pools_app', Hpools1, Hpools2, Hpt. simpl. lia.
Qed.


(** In a chain of calls that all returned, every path of the chain has
    its [_executed] copy among the files written. *)
Lemma returned_written (out : Path) (ps : list Path)
    (completed : list (Path * Res Path)) (evs : list (Event Notebook)) :
  completed.*1 = ps -> Forall returned completed ->
  Forall (fun pr => forall q, pr.2 = Done q ->
                              q = out_path_of pr.1 out /\ q ∈ writes evs)
         completed ->
  forall p, p ∈ ps -> out_path_of p out ∈ writes evs.
Proof.
  intros <- Hret Hall p Hp.
  apply list_elem_of_fmap in Hp as ([p' r] & -> & Hin). simpl.
  rewrite Forall_forall in Hret, Hall.
  specialize (Hret _ Hin). specialize (Hall _ Hin).
  unfold returned in Hret. simpl in *.
  destruct r as [q|e]; [|done].
  by destruct (Hall q eq_refl) as [<- ?].
Qed.

(** X6.  Status 0 with [ALLOW_ERRORS] off means full success: every
    configured notebook was executed, each once, the [_executed] copy of
    each one was written, and the closing line was printed. *)
Theorem success_all_saved sched w :
  (run Notebook engine cfg sched w).1 = 0 ->
  ALLOW_ERRORS cfg = false ->
  exists evs,
    trace (run Notebook engine cfg sched w).2 = trace w ++ evs /\
    Permutation (calls evs) (map (located (getcwd w)) (NOTEBOOKS cfg)) /\
    (forall nb, nb ∈ NOTEBOOKS cfg ->
       out_path_of (located (getcwd w) nb)
         (PurePath.div (PurePath.of_str (getcwd w)) (OUT_DIRNAME cfg))
       ∈ writes evs) /\
    EvPrint (MsgFinished
               (PurePath.div (PurePath.of_str (getcwd w)) (OUT_DIRNAME cfg)))
    ∈ evs.
Proof.
  rewrite run_main. simpl. intros Hstatus Hallow.
  destruct (decide (NOTEBOOKS cfg = [])) as [Hnil|Hne].
  { by rewrite main_empty in Hstatus. }
  set (out := PurePath.div (PurePath.of_str (getcwd w)) (OUT_DIRNAME cfg)).
  destruct (main_trace sched w Hne)
    as (k & done1 & w1 & evs1 & _ & Ht1 & Hcalls1 & _ & _ & _ & Hall1 & Hfst1
        & Hcase).
  fold out in Hall1, Hcase.
  destruct Hcase as [(pre & p & e & _ & _ & _ & Hmain)
                    |(-> & Hret1 & ps & done2 & w2 & evs2 & Hperm & _ & Ht2
                      & Hcalls2 & _ & _ & _ & Hall2 & Hfst2 & Hmain)];
    rewrite Hmain in Hstatus |- *; [done|].
  rewrite Hallow, andb_true_r in Hstatus |- *.
  destruct (existsb _ done2) eqn:Hex; [done|]. simpl.
  rewrite take_ge in Hcalls1, Hfst1 by lia.
  assert (Hret2 : Forall returned done2).
  { apply Forall_forall. intros pr Hin. unfold returned.
    destruct (is_raise pr.2) eqn:Hr; [|done].
    assert (existsb (fun pr => is_raise pr.2) done2 = true); [|congruence].
    apply existsb_exists. exists pr. split; [by apply list_elem_of_In | done]. }
  exists (evs1 ++ [EvPrint MsgParallelStart;
                   EvPool (Z.min 2 (Py.len (Split.par_part (NOTEBOOKS cfg))))]
          ++ evs2 ++ map EvPrint (error_lines done2)
          ++ [EvPrint (MsgFinished out)]).
  split_and!.
  - rewrite Ht2, Ht1. by rewrite <- !app_assoc.
  - rewrite !calls_app', Hcalls1, Hcalls2, calls_prints. simpl.
    rewrite app_nil_r, Hperm, <- map_app. by rewrite seq_par_app.
  - intros nb Hnb. rewrite <- (seq_par_app (NOTEBOOKS cfg)) in Hnb.
    rewrite !writes_app'.
    apply elem_of_app in Hnb as [Hnb|Hnb].
    + apply elem_of_app. left.
      eapply (returned_written out _ done1); try done.
      by apply list_elem_of_fmap_2.
    + apply elem_of_app. right. apply elem_of_app. right.
      apply elem_of_app. left.
      eapply (returned_written out ps done2); try done.
      rewrite Hperm. by apply list_elem_of_fmap_2.
  - apply elem_of_app. right. apply elem_of_app. right.
    apply elem_of_app. right. apply elem_of_app. right.
    by apply list_elem_of_singleton.
Qed.

(** The place of a pool event in a list that holds one pool event. *)
Lemma pool_split_unique (l1 l2 l1' l2' : list (Event Notebook)) (n n' : Z) :
  l1 ++ EvPool n :: l2 = l1' ++ EvPool n' :: l2' ->
  pools l1 = [] -> pools l2 = [] ->
  l1 = l1' /\ n = n' /\ l2 = l2'.
Proof.
  revert l1'. induction l1 as [|a l1 IH]; intros [|a' l1'] Heq H1 H2;
    simpl in Heq.
  - by injection Heq as -> ->.
  - injection Heq as <- ->. rewrite pools_app' in H2. simpl in H2.
    by destruct (pools l1').
  - injection Heq as -> _. simpl in H1. done.
  - injection Heq as -> Heq.
    assert (pools l1 = []) as H1'.
    { destruct a'; simpl in H1; try done. }
    destruct (IH l1' Heq H1' H2) as (-> & -> & ->). done.
Qed.

(** X7.  The pool is opened between the two phases and nowhere else: at a
    pool event of a run, [run_notebook] has been entered for all entries of
    the sequential subset, in their order, and is entered afterwards for
    the entries of the parallel subset and for no other; no second pool
    follows, and the pool has [min(2, len(par_part))] workers. *)
Theorem pool_splits_run sched w before n after :
  trace (run Notebook engine cfg sched w).2
  = trace w ++ before ++ EvPool n :: after ->
  calls before
  = map (located (getcwd w)) (Split.seq_part (NOTEBOOKS cfg)) /\
  Permutation (calls after)
    (map (located (getcwd w)) (Split.par_part (NOTEBOOKS cfg))) /\
  pools before = [] /\ pools after = [] /\
  n = Z.min 2 (Py.len (Split.par_part (NOTEBOOKS cfg))).
Proof.
  rewrite run_main. simpl. intros Htrace.
  destruct (decide (NOTEBOOKS cfg = [])) as [Hnil|Hne].
  { rewrite main_empty in Htrace by done. simpl in Htrace.
    apply app_inv_head in Htrace.
    apply (f_equal pools) in Htrace. rewrite pools_app' in Htrace.
    simpl in Htrace. by destruct (pools before). }
  destruct (main_trace sched w Hne)
    as (k & done1 & w1 & evs1 & _ & Ht1 & Hcalls1 & Hpools1 & _ & _ & _ & _
        & Hcase).
  destruct Hcase as [(pre & p & e & _ & _ & _ & Hmain)
                    |(-> & _ & ps & done2 & w2 & evs2 & Hperm & _ & Ht2
                      & Hcalls2 & Hpools2 & _ & _ & _ & _ & Hmain)];
    rewrite Hmain in Htrace.
  - simpl in Htrace. rewrite Ht1, <- app_assoc in Htrace.
    apply app_inv_head in Htrace.
    apply (f_equal pools) in Htrace. rewrite !pools_app', Hpools1 in Htrace.
    simpl in Htrace. by destruct (pools before).
  - rewrite take_ge in Hcalls1 by lia.
    set (tail := if existsb (fun pr => is_raise pr.2) done2
                    && negb (ALLOW_ERRORS cfg)
                 then map (EvPrint (Notebook:=Notebook)) (error_lines done2)
                 else map EvPrint (error_lines done2)
                      ++ [EvPrint (MsgFinished
                            (PurePath.div (PurePath.of_str (getcwd w))
                                          (OUT_DIRNAME cfg)))]).
    assert (Htail : calls tail = [] /\ pools tail = []).
    { unfold tail. destruct (_ && _);
        rewrite ?calls_app', ?pools_app', ?calls_prints, ?pools_prints; done. }
    destruct Htail as (Hct & Hpt).
    assert (Heq : (evs1 ++ [EvPrint MsgParallelStart])
                  ++ EvPool (Z.min 2 (Py.len (Split.par_part (NOTEBOOKS cfg))))
                     :: (evs2 ++ tail)
                  = before ++ EvPool n :: after).
    { apply (app_inv_head (trace w)). rewrite <- Htrace.
      unfold tail. destruct (_ && _); simpl; rewrite Ht2, Ht1;
        by rewrite <- !app_assoc. }
    apply pool_split_unique in Heq as (<- & <- & <-).
    + rewrite !calls_app', !pools_app', Hcalls1, Hcalls2, Hct, Hpools1,
        Hpools2, Hpt. simpl. rewrite !app_nil_r. by split_and!.
    + rewrite pools_app', Hpools1. done.
    + rewrite pools_app', Hpools2, Hpt. done.
Qed.

(** X10.  The lines [main] prints itself are, in order: the one line on
    an empty list; or, when the chain of sequential calls of the run ends
    with a call that raised, one halt line with the path and the error of
    that call, the status being 1; or else, all sequential calls of the run
    having returned, the banner of the parallel phase, one error line for
    each parallel task of the run that raised, in completion order and with
    the error it raised, and the closing line exactly when the status is
    0. *)
Theorem console_skeleton sched w :
  let cwd := getcwd w in
  let out := PurePath.div (PurePath.of_str cwd) (OUT_DIRNAME cfg) in
  let seq := Split.seq_part (NOTEBOOKS cfg) in
  let par := Split.par_part (NOTEBOOKS cfg) in
  exists evs,
    trace (run Notebook engine cfg sched w).2 = trace w ++ evs /\
    ((NOTEBOOKS cfg = [] /\ driver_lines evs = [MsgEmptyList])
     \/
     (exists k pre p e w1,
        settled engine cfg out w (map (located cwd) (take k seq))
          (pre ++ [(p, Raise (Exc e))]) w1 /\
        Forall returned pre /\
        (run Notebook engine cfg sched w).1 = 1 /\
        driver_lines evs = [MsgHalted p e])
     \/
     (exists done1 w1 ps done2 w2,
        settled engine cfg out w (map (located cwd) seq) done1 w1 /\
        Forall returned done1 /\
        Permutation ps (map (located cwd) par) /\
        settled engine cfg out
          (logs [EvPrint MsgParallelStart; EvPool (Z.min 2 (Py.len par))] w1)
          ps done2 w2 /\
        driver_lines evs
        = MsgParallelStart :: error_lines done2
          ++ (if (run Notebook engine cfg sched w).1 =? 0
              then [MsgFinished out] else []))).
Proof.
  intros cwd out seq par. rewrite run_main. simpl.
  destruct (decide (NOTEBOOKS cfg = [])) as [Hnil|Hne].
  { rewrite main_empty by done. exists [EvPrint MsgEmptyList].
    split; [done|]. by left. }
  destruct (main_trace sched w Hne)
    as (k & done1 & w1 & evs1 & Hset1 & Ht1 & _ & _ & Hlines1 & _ & _ & _
        & Hcase).
  fold cwd out seq par in Hset1, Hcase.
  destruct Hcase as [(pre & p & e & -> & Hpre & _ & ->)
                    |(-> & Hret1 & ps & done2 & w2 & evs2 & Hperm & Hset2 & Ht2
                      & _ & _ & Hlines2 & _ & _ & _ & ->)].
  - exists (evs1 ++ [EvPrint (MsgHalted p e)]). simpl.
    split; [rewrite Ht1; by rewrite <- app_assoc|].
    right; left. exists k, pre, p, e, w1. split_and!; try done.
    by rewrite driver_lines_app, Hlines1.
  - rewrite take_ge in Hset1 by lia.
    destruct (existsb _ done2 && negb (ALLOW_ERRORS cfg)); simpl.
    + exists (evs1 ++ [EvPrint MsgParallelStart; EvPool (Z.min 2 (Py.len par))]
              ++ evs2 ++ map EvPrint (error_lines done2)).
      split; [rewrite Ht2, Ht1; by rewrite <- !app_assoc|].
      right; right. exists done1, w1, ps, done2, w2. split_and!; try done.
      rewrite !driver_lines_app, Hlines1, Hlines2, driver_lines_errors.
      simpl. by rewrite app_nil_r.
    + exists (evs1 ++ [EvPrint MsgParallelStart; EvPool (Z.min 2 (Py.len par))]
              ++ evs2 ++ map EvPrint (error_lines done2)
              ++ [EvPrint (MsgFinished out)]).
      split; [rewrite Ht2, Ht1; by rewrite <- !app_assoc|].
      right; right. exists done1, w1, ps, done2, w2. split_and!; try done.
      rewrite !driver_lines_app, Hlines1, Hlines2, driver_lines_errors.
      done.
Qed.

(** *** Files that stay, copies that are in place *)

Lemma run_notebook_keeps_for w p d (evs : list (Event Notebook)) :
  quiet engine ->
  trace (run_notebook Notebook engine cfg p d w).2 = trace w ++ evs ->
  forall q x, PurePath.normal q ∉ map PurePath.normal (writes evs) ->
              fs w !! q = Some x ->
              fs (run_notebook Notebook engine cfg p d w).2 !! q = Some x.
Proof.
  intros Hquiet Ht.
  destruct (run_notebook_keeps _ engine cfg w p d Hquiet) as (evs' & Ht' & Hk).
  rewrite Ht' in Ht. apply app_inv_head in Ht. by subst evs'.
Qed.

(** With a quiet engine a chain of calls leaves every file in place, save
    those it writes. *)
Lemma settled_keeps d w ps completed w' :
  settled engine cfg d w ps completed w' -> quiet engine ->
  forall evs, trace w' = trace w ++ evs ->
  forall q x, PurePath.normal q ∉ map PurePath.normal (writes evs) ->
              fs w !! q = Some x -> fs w' !! q = Some x.
Proof.
  intros Hset Hquiet.
  induction Hset as [w|w p r w1 ps rs w'' Hrun Hset IH]; intros evs Ht q x Hq Hx.
  - done.
  - destruct (run_notebook_events _ engine cfg w p d) as (e1 & Ht1 & _).
    destruct (settled_events _ engine cfg _ _ _ _ _ Hset) as (e2 & Ht2 & _).
    rewrite Hrun in Ht1. simpl in Ht1.
    assert (evs = (EvCall p :: e1) ++ e2) as ->.
    { apply (app_inv_head (trace w)). rewrite <- Ht, Ht2, Ht1.
      by rewrite <- app_assoc. }
    rewrite writes_app', map_app in Hq.
    apply not_elem_of_app in Hq as [Hq1 Hq2].
    apply (IH e2 Ht2 q x Hq2).
    pose proof (run_notebook_keeps_for w p d (EvCall p :: e1) Hquiet) as Hk.
    rewrite Hrun in Hk. simpl in Hk. by apply Hk.
Qed.

(** The copies are at absolute paths when the output directory is. *)
Lemma copies_absolute p d :
  PurePath.is_absolute d = true ->
  PurePath.is_absolute (out_path_of p d) = true /\
  PurePath.is_absolute (failed_path_of p d) = true.
Proof.
  intros Hd.
  unfold out_path_of, failed_path_of, PurePath.div, PurePath.is_absolute in *.
  rewrite !joinpath_anchored, Hd. by rewrite !orb_true_r.
Qed.

Lemma run_notebook_writes_absolute w p d :
  PurePath.is_absolute d = true ->
  exists evs,
    trace (run_notebook Notebook engine cfg p d w).2 = trace w ++ evs /\
    Forall (fun q => PurePath.is_absolute q = true) (writes evs).
Proof.
  intros Hd. destruct (copies_absolute p d Hd) as [Hout Hfailed].
  run_notebook_cases engine cfg w p d; rewrite Hrun; simpl;
    eexists; (split; [reflexivity|]); simpl; by repeat constructor.
Qed.

Lemma settled_writes_absolute d w ps completed w' :
  settled engine cfg d w ps completed w' ->
  PurePath.is_absolute d = true ->
  forall evs, trace w' = trace w ++ evs ->
  Forall (fun q => PurePath.is_absolute q = true) (writes evs).
Proof.
  intros Hset Hd.
  induction Hset as [w|w p r w1 ps rs w'' Hrun Hset IH]; intros evs Ht.
  - rewrite <- (app_nil_r (trace w)) in Ht at 1.
    apply app_inv_head in Ht. subst evs. constructor.
  - destruct (run_notebook_writes_absolute w p d Hd) as (e1 & Ht1 & Ha1).
    destruct (settled_events _ engine cfg _ _ _ _ _ Hset) as (e2 & Ht2 & _).
    rewrite Hrun in Ht1. simpl in Ht1.
    assert (evs = e1 ++ e2) as ->.
    { apply (app_inv_head (trace w)). rewrite <- Ht, Ht2, Ht1.
      by rewrite <- app_assoc. }
    rewrite writes_app'. apply Forall_app. split; [done|]. by apply IH.
Qed.

(** The files a run writes are at absolute paths when the working
    directory is. *)
Lemma main_writes_absolute sched w (evs : list (Event Notebook)) :
  PurePath.is_absolute (PurePath.of_str (getcwd w)) = true ->
  trace (run Notebook engine cfg sched w).2 = trace w ++ evs ->
  Forall (fun q => PurePath.is_absolute q = true) (writes evs).
Proof.
  intros Hcwd. rewrite run_main. simpl.
  destruct (decide (NOTEBOOKS cfg = [])) as [Hnil|Hne].
  { rewrite main_empty by done. simpl. intros Ht%app_inv_head. subst evs.
    constructor. }
  assert (Hout : PurePath.is_absolute
                   (PurePath.div (PurePath.of_str (getcwd w)) (OUT_DIRNAME cfg))
                 = true).
  { unfold PurePath.div, PurePath.is_absolute in *.
    rewrite joinpath_anchored, Hcwd. by rewrite orb_true_r. }
  destruct (main_trace sched w Hne)
    as (k & done1 & w1 & evs1 & Hset1 & Ht1 & _ & _ & _ & _ & _ & _ & Hcase).
  pose proof (settled_writes_absolute _ _ _ _ _ Hset1 Hout evs1 Ht1) as Ha1.
  destruct Hcase as [(pre & p & e & _ & _ & _ & ->)
                    |(_ & _ & ps & done2 & w2 & evs2 & _ & Hset2 & Ht2
                      & _ & _ & _ & _ & _ & _ & ->)].
  - simpl. rewrite Ht1, <- app_assoc. intros Ht%app_inv_head. subst evs.
    rewrite writes_app', app_nil_r. done.
  - assert (Ha2 : Forall (fun q => PurePath.is_absolute q = true) (writes evs2)).
    { apply (settled_writes_absolute _ _ _ _ _ Hset2 Hout evs2).
      rewrite Ht2. simpl. by rewrite <- app_assoc. }
    destruct (_ && _); simpl; rewrite Ht2, Ht1, <- !app_assoc;
      intros Ht%app_inv_head; subst evs;
      rewrite !writes_app', ?writes_prints; simpl; rewrite ?app_nil_r;
      by apply Forall_app.
Qed.

(** X4.  With notebooks that leave the file system alone and an absolute
    working directory, a run never deletes or changes a file other than
    the copies it writes: what an absolute path held before the run it
    still holds after it, unless one of the files written is the file of
    that path, that is, has the same normal form.  The files written are
    at absolute paths. *)
Theorem files_preserved sched w :
  quiet engine ->
  PurePath.is_absolute (PurePath.of_str (getcwd w)) = true ->
  exists evs,
    trace (run Notebook engine cfg sched w).2 = trace w ++ evs /\
    Forall (fun p => PurePath.is_absolute p = true) (writes evs) /\
    forall q x, PurePath.is_absolute q = true ->
                PurePath.normal q ∉ map PurePath.normal (writes evs) ->
                fs w !! q = Some x ->
                fs (run Notebook engine cfg sched w).2 !! q = Some x.
Proof.
  intros Hquiet Hcwd.
  cut (exists evs,
         trace (run Notebook engine cfg sched w).2 = trace w ++ evs /\
         forall q x, PurePath.normal q ∉ map PurePath.normal (writes evs) ->
                     fs w !! q = Some x ->
                     fs (run Notebook engine cfg sched w).2 !! q = Some x).
  { intros (evs & Ht & Hkeep). exists evs. split; [done|].
    split; [|by intros q x _; apply Hkeep].
    by apply (main_writes_absolute sched w evs Hcwd). }
  rewrite run_main. simpl.
  destruct (decide (NOTEBOOKS cfg = [])) as [Hnil|Hne].
  { rewrite main_empty by done. by exists [EvPrint MsgEmptyList]. }
  destruct (main_trace sched w Hne)
    as (k & done1 & w1 & evs1 & Hset1 & Ht1 & _ & _ & _ & _ & _ & _ & Hcase).
  pose proof (settled_keeps _ _ _ _ _ Hset1 Hquiet evs1 Ht1) as Hk1.
  destruct Hcase as [(pre & p & e & _ & _ & _ & ->)
                    |(_ & _ & ps & done2 & w2 & evs2 & _ & Hset2 & Ht2
                      & _ & _ & _ & _ & _ & _ & ->)].
  - exists (evs1 ++ [EvPrint (MsgHalted p e)]). simpl.
    split; [rewrite Ht1; by rewrite <- app_assoc|].
    intros q x Hq Hx. rewrite writes_app', app_nil_r in Hq. by apply Hk1.
  - assert (Hk2 : forall q x,
              PurePath.normal q ∉ map PurePath.normal (writes evs2) ->
              fs w1 !! q = Some x -> fs w2 !! q = Some x).
    { apply (settled_keeps _ _ _ _ _ Hset2 Hquiet evs2).
      rewrite Ht2. simpl. by rewrite <- app_assoc. }
    set (tail := if existsb (fun pr => is_raise pr.2) done2
                    && negb (ALLOW_ERRORS cfg)
                 then map (EvPrint (Notebook:=Notebook)) (error_lines done2)
                 else map EvPrint (error_lines done2)
                      ++ [EvPrint (MsgFinished
                            (PurePath.div (PurePath.of_str (getcwd w))
                                          (OUT_DIRNAME cfg)))]).
    assert (Htail : writes tail = []).
    { unfold tail. destruct (_ && _);
        rewrite ?writes_app', ?writes_prints; done. }
    exists (evs1 ++ [EvPrint MsgParallelStart;
                     EvPool (Z.min 2 (Py.len (Split.par_part (NOTEBOOKS cfg))))]
            ++ evs2 ++ tail).
    split.
    + unfold tail. destruct (_ && _); simpl; rewrite Ht2, Ht1;
        by rewrite <- !app_assoc.
    + intros q x Hq Hx. rewrite !writes_app', Htail, app_nil_r in Hq.
      simpl in Hq. rewrite map_app in Hq.
      apply not_elem_of_app in Hq as [Hq1 Hq2].
      assert (fs w2 !! q = Some x) by (by apply Hk2, Hk1).
      by destruct (_ && _).
Qed.

(** A call that returned has left its copy at the path it returned. *)
Lemma run_notebook_done_saved w p d q w1 :
  run_notebook Notebook engine cfg p d w = (Done q, w1) ->
  exists doc, fs w1 !! q = Some (NbFile doc).
Proof.
  run_notebook_cases engine cfg w p d; rewrite Hrun; intros [= <- <-].
  exists doc. simpl. by apply lookup_saved_eq.
Qed.

(** The files written by a chain of calls that all returned. *)
Lemma settled_returned_writes d w ps completed w' :
  settled engine cfg d w ps completed w' -> Forall returned completed ->
  forall evs, trace w' = trace w ++ evs ->
  writes evs = map (fun p => out_path_of p d) ps.
Proof.
  induction 1 as [w|w p r w1 ps rs w'' Hrun Hset IH]; intros Hret evs Ht.
  - rewrite <- (app_nil_r (trace w)) in Ht at 1.
    apply app_inv_head in Ht. by subst evs.
  - inversion Hret as [|? ? Hr Hrs]; subst.
    destruct (run_notebook_events _ engine cfg w p d)
      as (e1 & Ht1 & _ & _ & _ & _ & _ & _ & Hdone).
    destruct (settled_events _ engine cfg _ _ _ _ _ Hset) as (e2 & Ht2 & _).
    rewrite Hrun in Ht1, Hdone. simpl in Ht1, Hdone.
    assert (evs = (EvCall p :: e1) ++ e2) as ->.
    { apply (app_inv_head (trace w)). rewrite <- Ht, Ht2, Ht1.
      by rewrite <- app_assoc. }
    unfold returned in Hr. simpl in Hr. destruct r as [q|e]; [|done].
    destruct (Hdone q eq_refl) as [Hq Hw]. clear Hdone. subst q.
    rewrite writes_app'. change (writes (EvCall p :: e1)) with (writes e1).
    rewrite Hw, (IH Hrs e2 Ht2). done.
Qed.

(** With a quiet engine, after a chain of calls that all returned and that
    write pairwise different files, every copy is in place. *)
Lemma settled_in_place d w ps completed w' :
  settled engine cfg d w ps completed w' -> quiet engine ->
  Forall returned completed ->
  NoDup (map (fun p => PurePath.normal (out_path_of p d)) ps) ->
  forall p, p ∈ ps ->
    exists doc, fs w' !! out_path_of p d = Some (NbFile doc).
Proof.
  intros Hset Hquiet.
  induction Hset as [w|w p0 r w1 ps rs w'' Hrun Hset IH];
    intros Hret Hnd p Hp.
  - by apply elem_of_nil in Hp.
  - inversion Hret as [|? ? Hr Hrs]; subst.
    simpl in Hnd. apply NoDup_cons in Hnd as [Hfresh Hnd].
    apply elem_of_cons in Hp as [->|Hp]; [|by apply IH].
    unfold returned in Hr. simpl in Hr. destruct r as [q|e]; [|done].
    destruct (run_notebook_events _ engine cfg w p0 d)
      as (e1 & _ & _ & _ & _ & _ & _ & _ & Hdone).
    rewrite Hrun in Hdone. simpl in Hdone.
    destruct (Hdone q eq_refl) as [Hq _]. clear Hdone. subst q.
    destruct (run_notebook_done_saved _ _ _ _ _ Hrun) as [doc Hdoc].
    exists doc.
    destruct (settled_events _ engine cfg _ _ _ _ _ Hset) as (e2 & Ht2 & _).
    eapply (settled_keeps _ _ _ _ _ Hset Hquiet e2 Ht2); [|done].
    rewrite (settled_returned_writes _ _ _ _ _ Hset Hrs e2 Ht2).
    by rewrite map_map.
Qed.

Lemma executed_name_inj (a : bool) (ps : list string) :
  Inj (=) (=) (fun stem => mkPath a (ps ++ [stem +:+ "_executed.ipynb"])).
Proof.
  intros s1 s2 [= H%app_inv_head]. injection H as H.
  by apply append_inv_tail in H.
Qed.

Lemma executed_name_steps_in (stem : string) :
  stem +:+ "_executed.ipynb" <> "..".
Proof.
  intros H. apply (f_equal String.length) in H.
  rewrite length_append in H. simpl in H. lia.
Qed.

(** Different stems give different [_executed] files. *)
Lemma out_paths_NoDup cwd d (l : list string) :
  NoDup (map (fun nb => PurePath.stem (located cwd nb)) l) ->
  NoDup (map (fun p => PurePath.normal (out_path_of p d))
             (map (located cwd) l)).
Proof.
  intros Hnd.
  replace (map (fun p => PurePath.normal (out_path_of p d))
               (map (located cwd) l))
    with ((fun stem =>
             mkPath (anchored d)
               (parts (PurePath.normal (mkPath (anchored d) (parts d)))
                ++ [stem +:+ "_executed.ipynb"]))
          <$> map (fun nb => PurePath.stem (located cwd nb)) l).
  - apply NoDup_fmap_2; [apply executed_name_inj | done].
  - rewrite !map_map. apply map_ext. intros nb.
    rewrite out_path_component by apply located_components.
    symmetry. apply normal_snoc, executed_name_steps_in.
Qed.

(** X12.  With notebooks that leave the file system alone and entries
    whose stems are pairwise different, status 0 with [ALLOW_ERRORS] off
    means that at the end of the run the [_executed] copy of every
    configured notebook is in the output directory. *)
Theorem copies_in_place sched w :
  quiet engine ->
  (run Notebook engine cfg sched w).1 = 0 ->
  ALLOW_ERRORS cfg = false ->
  NoDup (map (fun nb => PurePath.stem (located (getcwd w) nb)) (NOTEBOOKS cfg)) ->
  forall nb, nb ∈ NOTEBOOKS cfg ->
    exists doc,
      fs (run Notebook engine cfg sched w).2
        !! out_path_of (located (getcwd w) nb)
             (PurePath.div (PurePath.of_str (getcwd w)) (OUT_DIRNAME cfg))
      = Some (NbFile doc).
Proof.
  intros Hquiet. rewrite run_main. simpl. intros Hstatus Hallow Hnd nb Hnb.
  destruct (decide (NOTEBOOKS cfg = [])) as [Hnil|Hne].
  { by rewrite main_empty in Hstatus. }
  set (cwd := getcwd w) in *.
  set (out := PurePath.div (PurePath.of_str cwd) (OUT_DIRNAME cfg)).
  apply (out_paths_NoDup cwd out) in Hnd.
  rewrite <- (seq_par_app (NOTEBOOKS cfg)) in Hnd, Hnb.
  rewrite !map_app in Hnd. apply NoDup_app in Hnd as (Hnd1 & Hdisj & Hnd2).
  destruct (main_trace sched w Hne)
    as (k & done1 & w1 & evs1 & Hset1 & Ht1 & _ & _ & _ & _ & _ & _ & Hcase).
  fold cwd out in Hset1, Hcase.
  destruct Hcase as [(pre & p & e & _ & _ & _ & Hmain)
                    |(-> & Hret1 & ps & done2 & w2 & evs2 & Hperm & Hset2 & Ht2
                      & _ & _ & _ & _ & _ & _ & Hmain)];
    rewrite Hmain in Hstatus |- *; [done|].
  rewrite Hallow, andb_true_r in Hstatus |- *.
  destruct (existsb _ done2) eqn:Hex; [done|]. simpl.
  rewrite take_ge in Hset1 by lia.
  assert (Hret2 : Forall returned done2).
  { apply Forall_forall. intros pr Hin. unfold returned.
    destruct (is_raise pr.2) eqn:Hr; [|done].
    assert (existsb (fun pr => is_raise pr.2) done2 = true); [|congruence].
    apply existsb_exists. exists pr. split; [by apply list_elem_of_In | done]. }
  assert (Ht2' : trace w2
                 = trace (logs [EvPrint MsgParallelStart;
                                EvPool (Z.min 2 (Py.len
                                  (Split.par_part (NOTEBOOKS cfg))))] w1)
                   ++ evs2).
  { rewrite Ht2. simpl. by rewrite <- app_assoc. }
  assert (Hw2 : writes evs2 = map (fun p => out_path_of p out) ps).
  { by apply (settled_returned_writes _ _ _ _ _ Hset2 Hret2). }
  apply elem_of_app in Hnb as [Hnb|Hnb].
  - destruct (settled_in_place _ _ _ _ _ Hset1 Hquiet Hret1 Hnd1
                (located cwd nb)) as [doc Hdoc].
    { by apply list_elem_of_fmap_2. }
    exists doc.
    apply (settled_keeps _ _ _ _ _ Hset2 Hquiet evs2 Ht2'); [|done].
    rewrite Hw2, map_map, Hperm. apply Hdisj.
    apply (list_elem_of_fmap_2 (fun p => PurePath.normal (out_path_of p out))).
    by apply list_elem_of_fmap_2.
  - apply (settled_in_place _ _ _ _ _ Hset2 Hquiet Hret2).
    + by rewrite Hperm.
    + rewrite Hperm. by apply list_elem_of_fmap_2.
Qed.

End RunFacts.

(* ===================================================================== *)
(** ** The further properties on concrete runs *)
(* ===================================================================== *)

Section MoreRuns.

Import Host Runner Obs.

(** The call on the directory [/w/data]. *)
Lemma unreadable_fails_before_engine_witness :
  fs mixed_world !! mkPath true ["w"; "data"] = Some Dir /\
  exists kind evs,
    run_notebook nat Scenario.engine (Scenario.pair_cfg false)
      (mkPath true ["w"; "data"]) Scenario.out_dir mixed_world
    = (Raise (Exc (OtherError kind)), logs evs mixed_world) /\
    evs = [EvCall (mkPath true ["w"; "data"]);
           EvPrint (MsgStart (mkPath true ["w"; "data"]));
           EvRead (mkPath true ["w"; "data"])] /\
    engine_runs evs = 0%nat /\ mkdirs evs = [] /\ writes evs = [] /\
    fs (logs evs mixed_world) = fs mixed_world.
Proof.
  split; [reflexivity|].
  apply (unreadable_fails_before_engine nat Scenario.engine
           (Scenario.pair_cfg false) mixed_world (mkPath true ["w"; "data"])
           Scenario.out_dir Dir).
  - reflexivity.
  - discriminate.
Defined.

(** The call on [/w/a.ipynb]. *)
Lemma source_not_overwritten_witness :
  PurePath.components_ok (located "/w" "a.ipynb") /\
  out_path_of (located "/w" "a.ipynb") Scenario.out_dir
  <> located "/w" "a.ipynb" /\
  failed_path_of (located "/w" "a.ipynb") Scenario.out_dir
  <> located "/w" "a.ipynb" /\
  exists evs,
    trace (run_notebook nat Scenario.engine (Scenario.pair_cfg false)
             (located "/w" "a.ipynb") Scenario.out_dir mixed_world).2
    = trace mixed_world ++ evs /\
    located "/w" "a.ipynb" ∉ writes evs.
Proof.
  assert (Hok : PurePath.components_ok (located "/w" "a.ipynb")).
  { vm_compute. repeat constructor. }
  split; [exact Hok|].
  apply (source_not_overwritten nat Scenario.engine (Scenario.pair_cfg false)
           mixed_world (located "/w" "a.ipynb") Scenario.out_dir Hok).
Defined.

(** The call on [/w/a.ipynb], which succeeds. *)
Lemma out_dir_made_with_copy_witness :
  exists evs,
    trace (run_notebook nat Scenario.engine (Scenario.pair_cfg false)
             (located "/w" "a.ipynb") Scenario.out_dir mixed_world).2
    = trace mixed_world ++ evs /\
    mkdirs evs = [Scenario.out_dir] /\
    writes evs = [mkPath true ["w"; "executed"; "a_executed.ipynb"]] /\
    fs mixed_world !! Scenario.out_dir = None /\
    fs (run_notebook nat Scenario.engine (Scenario.pair_cfg false)
          (located "/w" "a.ipynb") Scenario.out_dir mixed_world).2
      !! Scenario.out_dir
    = Some Dir.
Proof.
  destruct (out_dir_made_with_copy nat Scenario.engine
              (Scenario.pair_cfg false) mixed_world (located "/w" "a.ipynb")
              Scenario.out_dir)
    as (evs & Ht & Hmk & _ & Hdir).
  exists evs. split; [exact Ht|].
  assert (Hevs : evs = drop 0 (trace (run_notebook nat Scenario.engine
                   (Scenario.pair_cfg false) (located "/w" "a.ipynb")
                   Scenario.out_dir mixed_world).2)).
  { rewrite Ht. reflexivity. }
  assert (Hw : writes evs
               = [mkPath true ["w"; "executed"; "a_executed.ipynb"]]).
  { rewrite Hevs. vm_compute. reflexivity. }
  split; [exact Hmk|]. split; [exact Hw|]. split; [reflexivity|].
  apply Hdir. rewrite Hw. discriminate.
Defined.

(** The call on [/w/a.ipynb]: one engine invocation, in [/w]. *)
Lemma engine_invoked_in_notebook_dir_witness :
  exists evs,
    trace (run_notebook nat Scenario.engine (Scenario.pair_cfg false)
             (located "/w" "a.ipynb") Scenario.out_dir mixed_world).2
    = trace mixed_world ++ evs /\
    engine_calls evs
    = [(mkEngineConfig 3600 "python3" false, "/w")].
Proof.
  destruct (engine_invoked_in_notebook_dir nat Scenario.engine
              (Scenario.pair_cfg false) mixed_world (located "/w" "a.ipynb")
              Scenario.out_dir)
    as (evs & Ht & Hcalls & _).
  exists evs. split; [exact Ht|]. rewrite Hcalls. reflexivity.
Defined.


(** The run of three notebooks that all succeed. *)
Lemma success_all_saved_witness :
  (run nat steady_engine ok_cfg [] ok_world).1 = 0 /\
  ALLOW_ERRORS ok_cfg = false /\
  exists evs,
    trace (run nat steady_engine ok_cfg [] ok_world).2
    = trace ok_world ++ evs /\
    Permutation (calls evs) (map (located (getcwd ok_world)) (NOTEBOOKS ok_cfg)) /\
    (forall nb, nb ∈ NOTEBOOKS ok_cfg ->
       out_path_of (located (getcwd ok_world) nb)
         (PurePath.div (PurePath.of_str (getcwd ok_world)) (OUT_DIRNAME ok_cfg))
       ∈ writes evs) /\
    EvPrint (MsgFinished
               (PurePath.div (PurePath.of_str (getcwd ok_world))
                             (OUT_DIRNAME ok_cfg)))
    ∈ evs.
Proof.
  assert (Hs : (run nat steady_engine ok_cfg [] ok_world).1 = 0)
    by (vm_compute; reflexivity).
  split; [exact Hs|]. split; [reflexivity|].
  apply (success_all_saved nat steady_engine ok_cfg [] ok_world Hs).
  reflexivity.
Defined.

(** The pool event of the run of three notebooks: one call before it, two
    after it. *)
Lemma pool_splits_run_witness :
  trace (run nat steady_engine ok_cfg [] ok_world).2
  = trace ok_world ++ ok_before_pool ++ EvPool 2 :: ok_after_pool /\
  calls ok_before_pool = [located "/w" "a.ipynb"] /\
  Permutation (calls ok_after_pool)
    [located "/w" "b.ipynb"; located "/w" "c.ipynb"] /\
  pools ok_before_pool = [] /\ pools ok_after_pool = [].
Proof.
  assert (Ht : trace (run nat steady_engine ok_cfg [] ok_world).2
               = trace ok_world ++ ok_before_pool ++ EvPool 2 :: ok_after_pool)
    by (vm_compute; reflexivity).
  split; [exact Ht|].
  destruct (pool_splits_run nat steady_engine ok_cfg [] ok_world
              ok_before_pool 2 ok_after_pool Ht)
    as (Hb & Ha & Hpb & Hpa & _).
  split; [exact Hb|]. split; [exact Ha|]. split; [exact Hpb | exact Hpa].
Defined.

(** The run of three notebooks with an engine that leaves the files
    alone. *)
Lemma files_preserved_witness :
  quiet steady_engine /\
  PurePath.is_absolute (PurePath.of_str (getcwd ok_world)) = true /\
  exists evs,
    trace (run nat steady_engine ok_cfg [] ok_world).2
    = trace ok_world ++ evs /\
    Forall (fun p => PurePath.is_absolute p = true) (writes evs) /\
    forall q x, PurePath.is_absolute q = true ->
                PurePath.normal q ∉ map PurePath.normal (writes evs) ->
                fs ok_world !! q = Some x ->
                fs (run nat steady_engine ok_cfg [] ok_world).2 !! q = Some x.
Proof.
  assert (Hq : quiet steady_engine) by (intros ep nb r m; reflexivity).
  split; [exact Hq|]. split; [reflexivity|].
  apply (files_preserved nat steady_engine ok_cfg [] ok_world Hq).
  reflexivity.
Defined.

(** The three copies at the end of the run of three notebooks. *)
Lemma copies_in_place_witness :
  quiet steady_engine /\
  (run nat steady_engine ok_cfg [] ok_world).1 = 0 /\
  ALLOW_ERRORS ok_cfg = false /\
  NoDup (map (fun nb => PurePath.stem (located (getcwd ok_world) nb))
             (NOTEBOOKS ok_cfg)) /\
  forall nb, nb ∈ NOTEBOOKS ok_cfg ->
    exists doc,
      fs (run nat steady_engine ok_cfg [] ok_world).2
        !! out_path_of (located (getcwd ok_world) nb)
             (PurePath.div (PurePath.of_str (getcwd ok_world))
                           (OUT_DIRNAME ok_cfg))
      = Some (NbFile doc).
Proof.
  assert (Hq : quiet steady_engine) by (intros ep nb r m; reflexivity).
  assert (Hs : (run nat steady_engine ok_cfg [] ok_world).1 = 0)
    by (vm_compute; reflexivity).
  assert (Hnd : NoDup (map (fun nb => PurePath.stem (located (getcwd ok_world) nb))
                           (NOTEBOOKS ok_cfg))).
  { apply (bool_decide_unpack _). vm_compute. exact I. }
  split; [exact Hq|]. split; [exact Hs|]. split; [reflexivity|].
  split; [exact Hnd|].
  apply (copies_in_place nat steady_engine ok_cfg [] ok_world Hq Hs eq_refl Hnd).
Defined.

End MoreRuns.
